(** * Speech analyzer: lexical tiers, vocabulary, collocations, patterns

    A shallow embedding of [analyzer/common_filter.py] and
    [analyzer/extractors.py], of the token loop of
    [analyzer/nlp_processor.py] and of [parse_gs_url] of
    [analyzer/processor.py].

    Conventions of the embedding.
    - Python [str] is [string]; the characters are ASCII code points, on
      which [str.isspace], [str.lower], [str.strip] and [str.split] are
      written out below.
    - Python [int] is [Z].
    - Python [float] is idealised as a real number ([R]): [math.log] is
      [ln], [math.log2 x] is [ln x / ln 2], and [round(x, 2)] rounds to the
      nearest multiple of 1/100, ties to even.  Overflow, NaN and the
      rounding error of binary floating point are outside the model.
    - A [dict], [Counter] or [defaultdict] is an association list in
      insertion order (the order Python iterates it in).
    - A [set] of strings is the list of its elements in insertion order;
      the order in which Python iterates the set depends on string hashes
      and is a parameter [set_order] of the functions that read it.
    - A parsed document is the list of its spaCy tokens ([Spacy.tok]); the
      pipeline that parses a text, the text of a span and the idiom
      lexicon are parameters.
    - A call that raises gives [Raise] with the name of the exception. *)

From Stdlib Require Import List String Ascii ZArith Lia Bool Arith DecimalString.
From Stdlib Require Import Permutation Sorted QArith Reals Lra.
Import ListNotations.

Local Open Scope string_scope.
Local Open Scope Z_scope.

(** ** Python string primitives *)

Module Py.

(** [str.isspace] on one ASCII character: TAB..CR, FS..US and SPACE. *)
Definition isspace (c : ascii) : bool :=
  let n := nat_of_ascii c in
  ((9 <=? n)%nat && (n <=? 13)%nat) || ((28 <=? n)%nat && (n <=? 32)%nat).

Definition lower_char (c : ascii) : ascii :=
  let n := nat_of_ascii c in
  if ((65 <=? n)%nat && (n <=? 90)%nat) then ascii_of_nat (n + 32) else c.

(** [s.lower()] *)
Fixpoint lower (s : string) : string :=
  match s with
  | EmptyString => EmptyString
  | String c r => String (lower_char c) (lower r)
  end.

Fixpoint lstrip (s : string) : string :=
  match s with
  | EmptyString => EmptyString
  | String c r => if isspace c then lstrip r else s
  end.

Fixpoint rstrip (s : string) : string :=
  match s with
  | EmptyString => EmptyString
  | String c r =>
      match rstrip r with
      | EmptyString => if isspace c then EmptyString else String c EmptyString
      | r' => String c r'
      end
  end.

(** [s.strip()] *)
Definition strip (s : string) : string := rstrip (lstrip s).

(** [s.split()]: maximal runs of non-space characters; [word] is the run
    being read. *)
Fixpoint split_from (word : string) (s : string) : list string :=
  match s with
  | EmptyString => if String.eqb word "" then [] else [word]
  | String c r =>
      if isspace c then
        (if String.eqb word "" then split_from "" r
         else word :: split_from "" r)
      else split_from (word ++ String c EmptyString) r
  end.

Definition split (s : string) : list string := split_from "" s.

(** [sep.join(l)] *)
Fixpoint join (sep : string) (l : list string) : string :=
  match l with
  | [] => ""
  | [x] => x
  | x :: r => x ++ sep ++ join sep r
  end.

(** [x in s] for a set or list of strings. *)
Definition mem (x : string) (s : list string) : bool :=
  existsb (String.eqb x) s.

(** Truthiness of a string: [not s] holds of the empty string only. *)
Definition falsy (s : string) : bool := String.eqb s "".

End Py.

(** ** [common_filter.py] *)

Definition COMMON_LEMMAS : list string := [
  "go"; "get"; "think"; "know"; "say"; "make"; "take"; "want"; "see"; "come";
  "use"; "find"; "give"; "tell"; "work"; "call"; "try"; "ask"; "need"; "feel";
  "become"; "leave"; "put"; "mean"; "keep"; "let"; "begin"; "seem"; "help";
  "show"; "hear"; "play"; "run"; "move"; "live"; "believe"; "bring"; "happen";
  "write"; "sit"; "stand"; "lose"; "pay"; "meet"; "include"; "continue"; "set";
  "learn"; "change"; "lead"; "understand"; "watch"; "follow"; "stop"; "create";
  "speak"; "read"; "allow"; "add"; "spend"; "grow"; "open"; "walk"; "win";
  "offer"; "remember"; "love"; "consider"; "appear"; "buy"; "wait"; "serve";
  "die"; "send"; "expect"; "build"; "stay"; "fall"; "cut"; "reach"; "kill";
  "remain"; "suggest"; "raise"; "pass"; "sell"; "require"; "report"; "decide";
  "pull"; "break"; "support"; "hold"; "turn"; "start"; "might"; "must";
  "people"; "thing"; "time"; "way"; "year"; "man"; "day"; "world"; "life";
  "hand"; "part"; "child"; "eye"; "woman"; "place"; "work"; "week"; "case";
  "point"; "government"; "company"; "number"; "group"; "problem"; "fact";
  "area"; "water"; "room"; "money"; "story"; "lot"; "program"; "system";
  "car"; "night"; "school"; "state"; "family"; "president"; "country";
  "body"; "house"; "service"; "party"; "head"; "level"; "office"; "door";
  "health"; "person"; "art"; "war"; "history"; "result"; "morning"; "reason";
  "research"; "girl"; "guy"; "book"; "end"; "member"; "law"; "face"; "street";
  "community"; "name"; "team"; "minute"; "idea"; "kid"; "back"; "parent";
  "rest"; "power"; "side"; "moment"; "table"; "teacher"; "father"; "center";
  "ground"; "policy"; "force"; "music"; "role"; "kitchen"; "sport"; "board";
  "action"; "interest"; "effect"; "class"; "industry"; "rate"; "type";
  "process"; "job"; "society"; "food"; "director"; "bill"; "model"; "project";
  "court"; "account"; "sort"; "issue"; "line"; "form"; "term"; "right";
  "development"; "value"; "market"; "report"; "experience"; "voice"; "order";
  "bank"; "tax"; "education"; "management"; "care"; "activity"; "couple";
  "amount"; "staff"; "condition"; "question"; "difference"; "kind"; "others";
  "good"; "new"; "first"; "last"; "long"; "great"; "little"; "own"; "other";
  "old"; "right"; "big"; "high"; "different"; "small"; "large"; "next";
  "early"; "young"; "important"; "few"; "public"; "bad"; "same"; "able";
  "real"; "sure"; "clear"; "possible"; "whole"; "certain"; "likely"; "social";
  "political"; "national"; "economic"; "general"; "local"; "international";
  "special"; "hard"; "fine"; "simple"; "single"; "free"; "full"; "best";
  "true"; "easy"; "strong"; "available"; "recent"; "particular"; "common";
  "personal"; "open"; "major"; "natural"; "significant"; "serious"; "ready";
  "necessary"; "main"; "basic"; "central"; "current"; "total"; "private";
  "wrong"; "happy"; "successful"; "effective"; "traditional"; "medical";
  "final"; "positive"; "physical"; "financial"; "environmental"; "popular";
  "nice"; "pretty"; "really"; "quite"; "actually"; "probably"; "maybe";
  "already"; "always"; "often"; "sometimes"; "usually"; "almost"; "especially";
  "rather"; "exactly"; "certainly"; "obviously"; "basically"; "literally";
  "on"; "in"; "out"; "up"; "down"; "off"; "over"; "about"; "around"; "through";
  "back"; "away"; "to"; "for"; "with"; "at"; "by"; "from"; "of"; "as"
].

Definition MODERATE_LEMMAS : list string := [
  "agree"; "allow"; "answer"; "apply"; "argue"; "arrive"; "assume"; "avoid";
  "base"; "beat"; "benefit"; "claim"; "close"; "compare"; "concern"; "consider";
  "contact"; "contain"; "cover"; "deal"; "demand"; "depend"; "describe";
  "design"; "determine"; "develop"; "discuss"; "draw"; "drive"; "eat";
  "encourage"; "enjoy"; "enter"; "exist"; "express"; "fail"; "fill"; "fit";
  "focus"; "force"; "forget"; "form"; "gain"; "guess"; "handle"; "hang";
  "hope"; "identify"; "imagine"; "improve"; "increase"; "indicate"; "involve";
  "join"; "judge"; "lack"; "limit"; "list"; "manage"; "mark"; "matter";
  "mind"; "note"; "notice"; "obtain"; "occur"; "own"; "perform"; "pick";
  "plan"; "prepare"; "present"; "prevent"; "produce"; "prove"; "provide";
  "publish"; "pull"; "push"; "raise"; "realize"; "receive"; "recognize";
  "reduce"; "refer"; "reflect"; "refuse"; "regard"; "relate"; "release";
  "remain"; "remove"; "replace"; "represent"; "request"; "require"; "respond";
  "result"; "return"; "reveal"; "review"; "rule"; "share"; "sign"; "solve";
  "sound"; "speak"; "spread"; "stand"; "stick"; "study"; "succeed"; "suffer";
  "supply"; "suppose"; "train"; "treat"; "trust"; "visit"; "vote"; "wish";
  "accept"; "account"; "address"; "affect"; "afford"; "aim"; "announce";
  "apologize"; "approve"; "attend"; "attract"; "average"; "award"; "balance";
  "band"; "basis"; "battle"; "behavior"; "belief"; "birth"; "bit"; "block";
  "border"; "brain"; "branch"; "budget"; "burn"; "bus"; "cabinet"; "camp";
  "campaign"; "capital"; "capture"; "cell"; "chain"; "challenge"; "channel";
  "chapter"; "charge"; "choice"; "claim"; "client"; "club"; "column";
  "comment"; "commission"; "competition"; "complaint"; "complex"; "concept";
  "conclusion"; "confidence"; "connection"; "consequence"; "construction";
  "contact"; "context"; "contract"; "contrast"; "contribution"; "conversation";
  "cookie"; "copy"; "cost"; "count"; "country"; "course"; "culture"; "curve";
  "data"; "date"; "debate"; "decision"; "definition"; "demand"; "design";
  "desire"; "detail"; "difficulty"; "discussion"; "distance"; "district";
  "document"; "dream"; "duty"; "economy"; "editor"; "effect"; "effort";
  "element"; "emotion"; "emphasis"; "employee"; "employer"; "energy";
  "engine"; "entry"; "environment"; "episode"; "event"; "evidence";
  "example"; "exchange"; "exercise"; "expansion"; "experience"; "expert";
  "expression"; "extent"; "factor"; "failure"; "feature"; "field"; "figure";
  "film"; "finger"; "flight"; "focus"; "frame"; "freedom"; "friend"; "front";
  "function"; "fund"; "future"; "game"; "gap"; "generation"; "glass"; "goal";
  "god"; "growth"; "guide"; "habit"; "half"; "impact"; "importance";
  "impression"; "improvement"; "incident"; "income"; "increase"; "industry";
  "influence"; "information"; "injury"; "instance"; "instruction";
  "insurance"; "intelligence"; "intention"; "interview"; "introduction";
  "item"; "job"; "key"; "knowledge"; "lab"; "lack"; "land"; "language";
  "layer"; "leader"; "length"; "level"; "limit"; "link"; "list"; "loss";
  "machine"; "magazine"; "majority"; "manner"; "map"; "mass"; "material";
  "meaning"; "measure"; "media"; "medium"; "method"; "middle"; "mind";
  "minority"; "minute"; "mix"; "mode"; "model"; "moment"; "month"; "mouth";
  "movement"; "nature"; "network"; "news"; "noise"; "note"; "notice";
  "object"; "opportunity"; "option"; "order"; "organization"; "output";
  "owner"; "page"; "pain"; "painting"; "pair"; "panel"; "paper"; "parent";
  "part"; "participant"; "partner"; "path"; "patient"; "pattern"; "payment";
  "peace"; "period"; "piece"; "plan"; "plane"; "plant"; "plate"; "player";
  "pleasure"; "point"; "policy"; "position"; "practice"; "pressure"; "price";
  "priority"; "prize"; "problem"; "procedure"; "process"; "product";
  "profit"; "program"; "progress"; "project"; "promise"; "proof"; "property";
  "proposal"; "protection"; "purpose"; "quality"; "quantity"; "quarter";
  "question"; "range"; "rate"; "ratio"; "reason"; "record"; "region";
  "relation"; "relationship"; "reply"; "report"; "request"; "response";
  "responsibility"; "return"; "review"; "risk"; "role"; "room"; "rule";
  "safety"; "sample"; "scale"; "scene"; "schedule"; "scheme"; "scope";
  "score"; "screen"; "section"; "sector"; "sense"; "series"; "service";
  "session"; "setting"; "share"; "shift"; "shock"; "side"; "sign"; "signal";
  "skill"; "solution"; "source"; "space"; "stage"; "standard"; "start";
  "state"; "statement"; "step"; "stock"; "store"; "story"; "strategy";
  "stress"; "structure"; "study"; "style"; "subject"; "success"; "survey";
  "system"; "target"; "task"; "taste"; "technology"; "temperature"; "term";
  "theme"; "thing"; "thought"; "tip"; "title"; "tool"; "topic"; "town";
  "trade"; "tradition"; "train"; "transfer"; "transition"; "truth"; "turn";
  "type"; "unit"; "user"; "value"; "version"; "video"; "view"; "village";
  "voice"; "vote"; "war"; "way"; "weight"; "whole"; "wife"; "wind"; "wing";
  "winner"; "witness"; "worker"; "works"; "writer"; "year"
].

Definition is_common_lemma (lemma : string) : bool :=
  if Py.falsy lemma then true
  else Py.mem (Py.strip (Py.lower lemma)) COMMON_LEMMAS.

Definition phrase_has_distinctive_word (phrase : string) : bool :=
  if Py.falsy phrase || Py.falsy (Py.strip phrase) then false
  else
    let words :=
      map (fun w => Py.lower (Py.strip w))
          (filter (fun w => negb (Py.falsy (Py.strip w))) (Py.split phrase)) in
    existsb (fun w => negb (Py.mem w COMMON_LEMMAS)) words.

Definition head_lemma_is_common (pattern : string) : bool :=
  if Py.falsy pattern || Py.falsy (Py.strip pattern) then true
  else
    match Py.split (Py.strip pattern) with
    | [] => true (* unreachable: a non-blank string has a first word *)
    | head :: _ => Py.mem (Py.lower head) COMMON_LEMMAS
    end.

Definition rarity_tier (lemma : string) : Z :=
  if Py.falsy lemma then 0
  else
    let w := Py.strip (Py.lower lemma) in
    if Py.mem w COMMON_LEMMAS then 0
    else if Py.mem w MODERATE_LEMMAS then 1
    else 2.


(** ** Containers *)

(** A [dict] with string keys, in insertion order. *)
Module Dict.
Section WithValues.
Context {V : Type}.

Definition t := list (string * V).

Fixpoint get (d : t) (k : string) : option V :=
match d with
| [] => None
| (k', v) :: r => if String.eqb k k' then Some v else get r k
end.

(** [d.get(k, dflt)] *)
Definition get_default (d : t) (k : string) (dflt : V) : V :=
match get d k with Some v => v | None => dflt end.

(** [d[k] = f(d[k])]: an existing key keeps its place, a new key goes
  last; [f] receives [None] for a new key. *)
Fixpoint update (k : string) (f : option V -> V) (d : t) : t :=
match d with
| [] => [(k, f None)]
| (k', v) :: r =>
    if String.eqb k k' then (k', f (Some v)) :: r
    else (k', v) :: update k f r
end.

Definition keys (d : t) : list string := map fst d.
End WithValues.
Arguments t : clear implicits.
End Dict.

(** The new value of [counter[k] += 1]: a missing key counts as 0. *)
Definition incr_value (o : option Z) : Z :=
  match o with Some v => v + 1 | None => 0 + 1 end.

(** [counter[k] += 1] on a [Counter]. *)
Definition counter_incr (k : string) (c : Dict.t Z) : Dict.t Z :=
  Dict.update k incr_value c.

(** [s.add(x)] on a set of strings. *)
Definition set_add (x : string) (s : list string) : list string :=
  if Py.mem x s then s else s ++ [x].

(** The new value of [d[k].add(x)]: a missing key holds the empty set. *)
Definition add_value (x : string) (o : option (list string)) : list string :=
  match o with Some s => set_add x s | None => set_add x [] end.

(** [d[k].add(x)] on a [defaultdict(set)]. *)
Definition dict_set_add (k x : string) (d : Dict.t (list string))
  : Dict.t (list string) :=
  Dict.update k (add_value x) d.

(** The set holding the elements of a list. *)
Definition set_of (xs : list string) : list string :=
  fold_left (fun s x => set_add x s) xs [].

(** The elements of [xs] filed under key [k]. *)
Definition under {X : Type} (key : X -> string) (k : string) (xs : list X)
  : list X :=
  filter (fun x => String.eqb (key x) k) xs.

(** One update of a dictionary with the entry that [x] is filed under. *)
Definition upd_step {X V : Type} (key : X -> string)
  (g : X -> option V -> V) (d : Dict.t V) (x : X) : Dict.t V :=
  Dict.update (key x) (g x) d.

(** ** Stable sorting *)

(** [list.sort] is stable.  [before y x] says that the key of [y] comes
    strictly first in the requested order; an element is inserted in front
    of the elements of the sorted rest that are not strictly before it, so
    elements with equal keys keep the order of the input. *)
Section StableSort.
Context {A : Type} (before : A -> A -> bool).

Fixpoint insert (x : A) (l : list A) : list A :=
  match l with
  | [] => [x]
  | y :: r => if before y x then y :: insert x r else x :: l
  end.

Definition stable_sort (l : list A) : list A := fold_right insert [] l.

(** [x] may stand in front of [y]. *)
Definition ordered (x y : A) : Prop := before y x = false.
End StableSort.

(** ** Floats, idealised *)

Definition Rltb (a b : R) : bool := if Rlt_dec a b then true else false.
Definition Reqb (a b : R) : bool := if Req_dec_T a b then true else false.

(** Nearest integer, ties to even. *)
Definition round_half_even (x : R) : Z :=
  let f := Zfloor x in
  let d := (x - IZR f)%R in
  if Rlt_dec d (1 / 2) then f
  else if Rlt_dec (1 / 2) d then f + 1
  else if Z.even f then f else f + 1.

(** [round(x, 2)] *)
Definition round2 (x : R) : R := (IZR (round_half_even (x * 100)) / 100)%R.

(** [math.log2] *)
Definition log2 (x : R) : R := (ln x / ln 2)%R.

(** ** [nlp_processor.py]: tokens *)

Definition CONTENT_POS : list string := ["NOUN"; "VERB"; "ADJ"; "ADV"].

(** The dictionary [process_document] builds for each token. *)
Record Token := {
  text : string;
  lemma : string;
  norm : string;
  pos : string;
  dep : string;
  is_stop : bool
}.

(** ** [extractors.py] *)

Definition lex_ltb (a b : Z * Z) : bool :=
  (fst a <? fst b) || ((fst a =? fst b) && (snd a <? snd b)).

Definition lex_Rltb (a b : R * R) : bool :=
  Rltb (fst a) (fst b) || (Reqb (fst a) (fst b) && Rltb (snd a) (snd b)).

(** [surfaces] is [None] when the item has no ["surfaces"] key. *)
Definition surfaces_field (surfaces : list string) : option (list string) :=
  match surfaces with [] => None | _ => Some surfaces end.

Record VocabItem := {
  v_t : string;
  v_c : Z;
  v_p10k : R;
  v_r : Z;
  v_surfaces : option (list string)
}.

Record VocabState := {
  vs_counter : Dict.t Z;
  vs_surfaces_by_lemma : Dict.t (list string);
  vs_total_tokens : Z
}.

Definition vocab_init : VocabState :=
  {| vs_counter := []; vs_surfaces_by_lemma := []; vs_total_tokens := 0 |}.

(** One iteration of the token loop of [extract_vocabulary].  The
    [continue] taken for a common lemma leaves the whole state, and so
    [total_tokens], as it was. *)
Definition vocab_step (st : VocabState) (token : Token) : VocabState :=
  if Py.mem (pos token) CONTENT_POS && negb (is_stop token) then
    if is_common_lemma (lemma token) then st
    else
      {| vs_counter := counter_incr (lemma token) (vs_counter st);
         vs_surfaces_by_lemma :=
           dict_set_add (lemma token) (text token) (vs_surfaces_by_lemma st);
         vs_total_tokens := vs_total_tokens st + 1 |}
  else
    {| vs_counter := vs_counter st;
       vs_surfaces_by_lemma := vs_surfaces_by_lemma st;
       vs_total_tokens := vs_total_tokens st + 1 |}.

Definition vocab_key (x : VocabItem) : Z * Z := (- v_r x, - v_c x).

Record PhraseItem := {
  lp_t : string;
  lp_n : string;
  lp_c : Z;
  lp_df : Z;
  lp_s : R;
  lp_pmi : R;
  lp_surfaces : option (list string)
}.

Record PhraseState := {
  ps_phrase_count : Dict.t Z;
  ps_phrase_docs : Dict.t (list string);
  ps_phrase_surfaces : Dict.t (list string);
  ps_phrase_n : Dict.t Z
}.

Definition phrase_init : PhraseState :=
  {| ps_phrase_count := []; ps_phrase_docs := [];
     ps_phrase_surfaces := []; ps_phrase_n := [] |}.

(** [generate_ngrams(tokens, n, doc_id)], for [n >= 1] (the callers pass
    2..7).  The comparison [stop_count / n > 0.6] is made on exact
    rationals.  At [n = 0] the division raises [ZeroDivisionError] in
    Python; that call is outside the embedding, and the statements about
    this function assume [0 < n]. *)
Definition generate_ngrams (tokens : list Token) (n : nat) (doc_id : string)
  : list (string * string * string) :=
  flat_map
    (fun i =>
       let ngram := firstn n (skipn i tokens) in
       let stop_count := List.length (filter is_stop ngram) in
       if negb (Qle_bool (inject_Z (Z.of_nat stop_count) / inject_Z (Z.of_nat n)) 0.6)
       then []
       else if negb (existsb (fun t => Py.mem (pos t) CONTENT_POS) ngram)
       then []
       else [(Py.join " " (map norm ngram), doc_id, Py.join " " (map text ngram))])
    (seq 0 (List.length tokens + 1 - n)).

(** [a or b] on strings. *)
Definition str_or (a b : string) : string := if Py.falsy a then b else a.

Definition unigram_step (acc : Dict.t Z * Z) (t : Token) : Dict.t Z * Z :=
  let norm := Py.strip (str_or (str_or (norm t) (lemma t)) "") in
  if negb (Py.falsy norm) then (counter_incr norm (fst acc), snd acc + 1)
  else acc.

Definition _unigram_counts_and_total (all_tokens : Dict.t (list Token))
  : Dict.t Z * Z :=
  fold_left (fun acc '(_, tokens) => fold_left unigram_step tokens acc)
            all_tokens ([], 0).

(** The product of the smoothed unigram counts, left to right from 1.0. *)
Definition pmi_prod (unigram : Dict.t Z) (words : list string) : R :=
  fold_left (fun prod w => (prod * (IZR (Dict.get_default unigram w 0%Z) + 0.01))%R)
            words 1%R.

(** The value [pmi] of [_pmi] before it is rounded. *)
Definition pmi_value (phrase : string) (phrase_count : Z) (unigram : Dict.t Z)
  (total_tokens : Z) (n : Z) : R :=
  let words := Py.split phrase in
  let prod := pmi_prod unigram words in
  let num := ((IZR phrase_count + 0.01)
              * powerRZ (IZR total_tokens + 0.01) (n - 1)%Z)%R in
  log2 (num / (prod + 1e-10)).

Definition _pmi (phrase : string) (phrase_count : Z) (unigram : Dict.t Z)
  (total_tokens : Z) (n : Z) : R :=
  if (total_tokens <=? 0) || (phrase_count <=? 0) || (n <? 2) then 0%R
  else
    let words := Py.split phrase in
    if negb (Z.of_nat (List.length words) =? n) then 0%R
    else round2 (pmi_value phrase phrase_count unigram total_tokens n).

(** The body of the innermost loop of [extract_learning_phrases]. *)
Definition phrase_step (n : nat) (st : PhraseState)
  (g : string * string * string) : PhraseState :=
  let '(phrase, doc, surface) := g in
  {| ps_phrase_count := counter_incr phrase (ps_phrase_count st);
     ps_phrase_docs := dict_set_add phrase doc (ps_phrase_docs st);
     ps_phrase_surfaces :=
       if negb (Py.falsy (Py.strip surface))
       then dict_set_add phrase surface (ps_phrase_surfaces st)
       else ps_phrase_surfaces st;
     ps_phrase_n :=
       Dict.update phrase (fun _ => Z.of_nat n) (ps_phrase_n st) |}.

Definition phrase_doc_step (st : PhraseState) (d : string * list Token)
  : PhraseState :=
  let '(doc_id, tokens) := d in
  fold_left
    (fun st n => fold_left (phrase_step n) (generate_ngrams tokens n doc_id) st)
    [2; 3; 4; 5]%nat st.

Definition phrase_key (x : PhraseItem) : R * R := (lp_pmi x, lp_s x).

Record Pattern := {
  p_t : string;
  p_kind : string;
  p_surface : string
}.

Record PatternItem := {
  pp_t : string;
  pp_kind : string;
  pp_c : Z;
  pp_df : Z;
  pp_surfaces : option (list string)
}.

Record PatternState := {
  pt_pattern_count : Dict.t Z;
  pt_pattern_docs : Dict.t (list string);
  pt_pattern_kind : Dict.t string;
  pt_pattern_surfaces : Dict.t (list string)
}.

Definition pattern_init : PatternState :=
  {| pt_pattern_count := []; pt_pattern_docs := [];
     pt_pattern_kind := []; pt_pattern_surfaces := [] |}.

Definition pattern_step (doc_id : string) (st : PatternState) (p : Pattern)
  : PatternState :=
  let key := p_t p in
  let surface := Py.strip (p_surface p) in
  {| pt_pattern_count := counter_incr key (pt_pattern_count st);
     pt_pattern_docs := dict_set_add key doc_id (pt_pattern_docs st);
     pt_pattern_kind := Dict.update key (fun _ => p_kind p) (pt_pattern_kind st);
     pt_pattern_surfaces :=
       if negb (Py.falsy surface)
       then dict_set_add key surface (pt_pattern_surfaces st)
       else pt_pattern_surfaces st |}.

Definition pattern_doc_step (st : PatternState) (d : string * list Pattern)
  : PatternState :=
  let '(doc_id, patterns) := d in fold_left (pattern_step doc_id) patterns st.

(** [Counter.most_common(k)]: the first [k] items of the stable sort by
    count, largest first. *)
Definition most_common (k : nat) (c : Dict.t Z) : list (string * Z) :=
  firstn k (stable_sort (fun y x => snd x <? snd y) c).

Section Extractors.

(** The order in which iterating a [set] of strings yields its elements
    (given here in insertion order). *)
Variable set_order : list string -> list string.

(** [list(d.get(k, []))[:30]] *)
Definition surfaces_of (d : Dict.t (list string)) (k : string) : list string :=
  firstn 30 (set_order (Dict.get_default d k [])).

Definition vocab_item (st : VocabState) (e : string * Z) : VocabItem :=
  let '(lemma, count) := e in
  {| v_t := lemma;
     v_c := count;
     v_p10k := round2 (IZR count / IZR (vs_total_tokens st) * 10000);
     v_r := rarity_tier lemma;
     v_surfaces := surfaces_field (surfaces_of (vs_surfaces_by_lemma st) lemma) |}.

(** The list [vocab] of [extract_vocabulary] before it is sorted. *)
Definition vocab_entries (tokens : list Token) : list VocabItem :=
  let st := fold_left vocab_step tokens vocab_init in
  map (vocab_item st) (vs_counter st).

Definition extract_vocabulary (tokens : list Token) : list VocabItem :=
  let st := fold_left vocab_step tokens vocab_init in
  if vs_total_tokens st =? 0 then []
  else
    let vocab := vocab_entries tokens in
    firstn 1000
      (stable_sort (fun y x => lex_ltb (vocab_key y) (vocab_key x)) vocab).

Definition phrase_item (st : PhraseState) (unigram : Dict.t Z)
  (total_tokens : Z) (phrase : string) (count doc_freq : Z) : PhraseItem :=
  let score := (IZR count * ln (IZR (1 + doc_freq)%Z))%R in
  let pmi := _pmi phrase count unigram total_tokens
                  (Dict.get_default (ps_phrase_n st) phrase 2) in
  {| lp_t := phrase;
     lp_n := phrase;
     lp_c := count;
     lp_df := doc_freq;
     lp_s := round2 score;
     lp_pmi := pmi;
     lp_surfaces := surfaces_field (surfaces_of (ps_phrase_surfaces st) phrase) |}.

(** The list [phrases] of [extract_learning_phrases] before it is
    sorted. *)
Definition phrase_entries (all_tokens : Dict.t (list Token))
  (total_docs : Z) : list PhraseItem :=
  let st := fold_left phrase_doc_step all_tokens phrase_init in
  let '(unigram, total_tokens) := _unigram_counts_and_total all_tokens in
  let min_doc_freq := if total_docs =? 1 then 1 else 2 in
  let min_count := if total_docs =? 1 then 2 else 5 in
  flat_map
    (fun '(phrase, count) =>
       let doc_freq :=
         Z.of_nat (List.length (Dict.get_default (ps_phrase_docs st) phrase [])) in
       if (count <? min_count) || (doc_freq <? min_doc_freq) then []
       else if negb (phrase_has_distinctive_word phrase) then []
       else [phrase_item st unigram total_tokens phrase count doc_freq])
    (ps_phrase_count st).

Definition extract_learning_phrases (all_tokens : Dict.t (list Token))
  (total_docs : Z) : list PhraseItem :=
  let phrases := phrase_entries all_tokens total_docs in
  firstn 1000
    (stable_sort (fun y x => lex_Rltb (phrase_key x) (phrase_key y)) phrases).

Definition pattern_item (st : PatternState) (pattern : string) (count : Z)
  : PatternItem :=
  {| pp_t := pattern;
     pp_kind := Dict.get_default (pt_pattern_kind st) pattern "";
     pp_c := count;
     pp_df := Z.of_nat (List.length (Dict.get_default (pt_pattern_docs st) pattern []));
     pp_surfaces := surfaces_field (surfaces_of (pt_pattern_surfaces st) pattern) |}.

Definition aggregate_patterns (all_patterns : Dict.t (list Pattern))
  : list PatternItem :=
  let st := fold_left pattern_doc_step all_patterns pattern_init in
  flat_map
    (fun '(pattern, count) =>
       if head_lemma_is_common pattern then []
       else [pattern_item st pattern count])
    (most_common 1000 (pt_pattern_count st)).

End Extractors.

(** ** Reference notions for the statements *)

(** A token whose lemma [extract_vocabulary] counts. *)
Definition counted (t : Token) : bool :=
  Py.mem (pos t) CONTENT_POS && negb (is_stop t)
  && negb (is_common_lemma (lemma t)).

(** A token on which the loop of [extract_vocabulary] takes [continue]. *)
Definition skipped (t : Token) : bool :=
  Py.mem (pos t) CONTENT_POS && negb (is_stop t)
  && is_common_lemma (lemma t).



(** The n-gram occurrences that the loops of [extract_learning_phrases]
    visit, in order, each with its [n]. *)
Definition phrase_occurrences (all_tokens : Dict.t (list Token))
  : list (nat * (string * string * string)) :=
  flat_map
    (fun '(doc_id, tokens) =>
       flat_map (fun n => map (pair n) (generate_ngrams tokens n doc_id))
                [2; 3; 4; 5]%nat)
    all_tokens.

Definition occ_phrase (o : nat * (string * string * string)) : string :=
  fst (fst (snd o)).
Definition occ_doc (o : nat * (string * string * string)) : string :=
  snd (fst (snd o)).

(** How many times the corpus produces [phrase] as an n-gram. *)
Definition total_count (all_tokens : Dict.t (list Token)) (phrase : string) : Z :=
  Z.of_nat (List.length (under occ_phrase phrase (phrase_occurrences all_tokens))).

(** In how many distinct documents [phrase] occurs. *)
Definition document_frequency (all_tokens : Dict.t (list Token))
  (phrase : string) : Z :=
  Z.of_nat (List.length (nodup string_dec
    (map occ_doc (under occ_phrase phrase (phrase_occurrences all_tokens))))).

(** The filter of [extract_learning_phrases], on the reference counts. *)
Definition qualifies (all_tokens : Dict.t (list Token)) (total_docs : Z)
  (phrase : string) : bool :=
  phrase_has_distinctive_word phrase
  && (if total_docs =? 1
      then (2 <=? total_count all_tokens phrase)
           && (1 <=? document_frequency all_tokens phrase)
      else (5 <=? total_count all_tokens phrase)
           && (2 <=? document_frequency all_tokens phrase)).

(** The distinct candidate phrases, in order of first occurrence. *)
Definition candidate_phrases (all_tokens : Dict.t (list Token)) : list string :=
  set_of (map occ_phrase (phrase_occurrences all_tokens)).



(** The pattern occurrences that the loops of [aggregate_patterns] visit,
    in order, each with its document id. *)
Definition pattern_occurrences (all_patterns : Dict.t (list Pattern))
  : list (string * Pattern) :=
  flat_map (fun '(doc_id, patterns) => map (pair doc_id) patterns) all_patterns.

Definition occ_key (o : string * Pattern) : string := p_t (snd o).

(** One iteration of the inner loop of [aggregate_patterns], on an
    occurrence. *)
Definition pattern_occ_step (st : PatternState) (o : string * Pattern)
  : PatternState :=
  pattern_step (fst o) st (snd o).

(** The product of a list of reals. *)
Definition Rprod (l : list R) : R := fold_right Rmult 1%R l.

(** The PMI of the specification for the words [words]:
    log2((c + 0.01) * (T + 0.01)^(n-1) / (prod_i (count(w_i) + 0.01) + 1e-10)). *)
Definition pmi_formula (words : list string) (c : Z) (unigram : Dict.t Z)
  (T : Z) : R :=
  log2 ((IZR c + 0.01) * (IZR T + 0.01) ^ (List.length words - 1)
        / (Rprod (map (fun w => IZR (Dict.get_default unigram w 0%Z) + 0.01) words)
           + 1e-10))%R.

(** One iteration of the innermost loop of [extract_learning_phrases], on
    an occurrence. *)
Definition phrase_occ_step (st : PhraseState)
  (o : nat * (string * string * string)) : PhraseState :=
  phrase_step (fst o) st (snd o).

(** The fields of an entry other than its surface forms. *)
Definition phrase_core (x : PhraseItem) : string * string * Z * Z * R * R :=
  (lp_t x, lp_n x, lp_c x, lp_df x, lp_s x, lp_pmi x).

(** The sort key (pmi, s) of those fields. *)
Definition core_key (c : string * string * Z * Z * R * R) : R * R :=
  (snd c, snd (fst c)).

(** ** Sample inputs *)

Definition word (w p : string) : Token :=
  {| text := w; lemma := w; norm := w; pos := p; dep := ""; is_stop := false |}.

(** Two verbs, the first with a common lemma. *)
Definition rate_tokens : list Token := [word "go" "VERB"; word "reckon" "VERB"].

(** 10,000 tokens: 9,993 times "go" and 7 times "reckon". *)
Definition rate_tokens_10000 : list Token :=
  repeat (word "go" "VERB") (Z.to_nat 9993) ++ repeat (word "reckon" "VERB") 7.

(** The decimal numeral of a natural number. *)
Definition numeral (i : nat) : string := NilZero.string_of_uint (Nat.to_uint i).

Definition pattern (t kind : string) : Pattern :=
  {| p_t := t; p_kind := kind; p_surface := t |}.

(** One key found as an adjective-noun pattern in one document and as a
    noun compound in the next. *)
Definition kind_patterns : Dict.t (list Pattern) :=
  [("doc-a", [pattern "gold ring" "adjn"]);
   ("doc-b", [pattern "gold ring" "nn"])].

(** One document with 1000 verb-object keys headed by the common verb
    "go", each found twice, followed by the key "reckon so", found once. *)
Definition head_patterns : Dict.t (list Pattern) :=
  [("doc-a",
    (flat_map (fun i => let p := pattern (String.append "go " (numeral i)) "VO" in [p; p])
              (seq 0 (Z.to_nat 1000))
     ++ [pattern "reckon so" "VO"])%list)].

(** Unigram counts of the two words of the phrase "folks reckon". *)
Definition bigram_unigram (c1 c2 : Z) : Dict.t Z := [("folks", c1); ("reckon", c2)].

(** One document in which "folks reckon" is found twice. *)
Definition single_doc_corpus : Dict.t (list Token) :=
  [("doc-a", [word "folks" "NOUN"; word "reckon" "VERB";
              word "folks" "NOUN"; word "reckon" "VERB"])].

(** Two documents in which "folks reckon" is found 3 + 2 times. *)
Definition two_doc_corpus_5 : Dict.t (list Token) :=
  [("doc-a", [word "folks" "NOUN"; word "reckon" "VERB";
              word "folks" "NOUN"; word "reckon" "VERB";
              word "folks" "NOUN"; word "reckon" "VERB"]);
   ("doc-b", [word "folks" "NOUN"; word "reckon" "VERB";
              word "folks" "NOUN"; word "reckon" "VERB"])].

(** Two documents in which "folks reckon" is found 2 + 2 times. *)
Definition two_doc_corpus_4 : Dict.t (list Token) :=
  [("doc-a", [word "folks" "NOUN"; word "reckon" "VERB";
              word "folks" "NOUN"; word "reckon" "VERB"]);
   ("doc-b", [word "folks" "NOUN"; word "reckon" "VERB";
              word "folks" "NOUN"; word "reckon" "VERB"])].


(** ** Further reference notions and embedded functions *)

(** No whitespace character. *)
Fixpoint spaceless (s : string) : bool :=
  match s with
  | EmptyString => true
  | String c r => negb (Py.isspace c) && spaceless r
  end.

(** A non-empty run of characters without whitespace. *)
Definition is_word (w : string) : Prop := w <> "" /\ spaceless w = true.

(** The window of [n] tokens that starts at index [i]. *)
Definition window (tokens : list Token) (i n : nat) : list Token :=
  firstn n (skipn i tokens).

(** The number of stop-words among some tokens. *)
Definition stop_count (ngram : list Token) : nat :=
  List.length (filter is_stop ngram).


(** The string [norm] that [_unigram_counts_and_total] computes for a
    token. *)
Definition unigram_form (t : Token) : string :=
  Py.strip (str_or (str_or (norm t) (lemma t)) "").

(** The tokens that [_unigram_counts_and_total] counts. *)
Definition unigram_tokens (all_tokens : Dict.t (list Token)) : list Token :=
  filter (fun t => negb (Py.falsy (unigram_form t))) (flat_map snd all_tokens).

(** The sum of the values of a counter. *)
Definition counter_total (c : Dict.t Z) : Z := fold_right Z.add 0 (map snd c).

(** ** [extractors.py]: idiom phrases *)

Record IdiomItem := {
  ip_t : string;
  ip_c : Z;
  ip_df : Z;
  ip_surfaces : option (list string)
}.

Record IdiomState := {
  id_phrase_count : Dict.t Z;
  id_phrase_docs : Dict.t (list string);
  id_phrase_surfaces : Dict.t (list string)
}.

Definition idiom_init : IdiomState :=
  {| id_phrase_count := []; id_phrase_docs := []; id_phrase_surfaces := [] |}.

(** The phrase and the document of an n-gram. *)
Definition gram_phrase (g : string * string * string) : string := fst (fst g).
Definition gram_doc (g : string * string * string) : string := snd (fst g).

Section Idioms.

(** [is_idiom] of [idiom_lexicon.py], which is not among the sources: the
    membership test of the idiom lexicon, a parameter. *)
Variable is_idiom : string -> bool.

Variable set_order : list string -> list string.

(** The body of the innermost loop of [extract_idiom_phrases]. *)
Definition idiom_step (st : IdiomState) (g : string * string * string)
  : IdiomState :=
  let '(phrase, doc, surface) := g in
  if negb (is_idiom phrase) then st
  else
    {| id_phrase_count := counter_incr phrase (id_phrase_count st);
       id_phrase_docs := dict_set_add phrase doc (id_phrase_docs st);
       id_phrase_surfaces :=
         if negb (Py.falsy (Py.strip surface))
         then dict_set_add phrase surface (id_phrase_surfaces st)
         else id_phrase_surfaces st |}.

Definition idiom_doc_step (st : IdiomState) (d : string * list Token)
  : IdiomState :=
  let '(doc_id, tokens) := d in
  fold_left
    (fun st n => fold_left idiom_step (generate_ngrams tokens n doc_id) st)
    [2; 3; 4; 5; 6; 7]%nat st.

Definition idiom_item (st : IdiomState) (e : string * Z) : IdiomItem :=
  let '(phrase, count) := e in
  {| ip_t := phrase;
     ip_c := count;
     ip_df := Z.of_nat (List.length (Dict.get_default (id_phrase_docs st) phrase []));
     ip_surfaces := surfaces_field (surfaces_of set_order (id_phrase_surfaces st) phrase) |}.

Definition extract_idiom_phrases (all_tokens : Dict.t (list Token))
  (total_docs : Z) : list IdiomItem :=
  let st := fold_left idiom_doc_step all_tokens idiom_init in
  map (idiom_item st) (most_common 500 (id_phrase_count st)).

(** The n-grams of length 2 to 7 of the corpus that are idioms, in the
    order the loops visit them. *)
Definition idiom_occurrences (all_tokens : Dict.t (list Token))
  : list (string * string * string) :=
  filter (fun g => is_idiom (gram_phrase g))
    (flat_map
       (fun '(doc_id, tokens) =>
          flat_map (fun n => generate_ngrams tokens n doc_id)
                   [2; 3; 4; 5; 6; 7]%nat)
       all_tokens).

End Idioms.

(** ** [nlp_processor.py] and the pattern extractor of [extractors.py] *)

(** A token of a spaCy document, as far as the code reads it: its
    attributes and its syntactic children. *)
Module Spacy.

Local Unset Elimination Schemes.

Inductive tok : Type := Tok {
  text : string;
  lemma_ : string;
  pos_ : string;
  dep_ : string;
  is_stop : bool;
  like_num : bool;
  i : Z;
  children : list tok
}.

End Spacy.

Definition IGNORE_POS : list string := ["PUNCT"; "SPACE"; "DET"; "AUX"].

Definition norm_token (token : Spacy.tok) : string :=
  if String.eqb (Spacy.pos_ token) "PRON" then "SB"
  else if String.eqb (Spacy.pos_ token) "PROPN" then "SB"
  else if Spacy.like_num token || String.eqb (Spacy.pos_ token) "NUM" then "NUM"
  else Py.lower (Spacy.lemma_ token).

(** The loop of [process_document] over the document [nlp(text)]; the
    spaCy pipeline [nlp] is outside the sources, and the function is given
    the document it returns. *)
Definition process_document (doc : list Spacy.tok) : list Token :=
  flat_map
    (fun token =>
       if Py.mem (Spacy.pos_ token) IGNORE_POS then []
       else [{| text := Spacy.text token;
                lemma := Py.lower (Spacy.lemma_ token);
                norm := norm_token token;
                pos := Spacy.pos_ token;
                dep := Spacy.dep_ token;
                is_stop := Spacy.is_stop token |}])
    doc.

Section Patterns.

(** [doc[lo:hi].text], the text of a span of the document: spaCy's, a
    parameter. *)
Variable doc_text : Z -> Z -> string.

Definition _span_text (indices : list Z) : string :=
  match indices with
  | [] => ""
  | i0 :: rest =>
      let lo := fold_left Z.min rest i0 in
      let hi := fold_left Z.max rest i0 in
      doc_text lo (hi + 1)
  end.

(** The patterns that one child of a verb gives. *)
Definition verb_child_patterns (token child : Spacy.tok) : list Pattern :=
  ((if String.eqb (Spacy.dep_ child) "prep" then
      flat_map
        (fun grandchild =>
           if String.eqb (Spacy.dep_ grandchild) "pobj" then
             [{| p_t := Spacy.lemma_ token ++ " " ++ Spacy.lemma_ child
                        ++ " " ++ norm_token grandchild;
                 p_kind := "VPO";
                 p_surface := _span_text [Spacy.i token; Spacy.i child;
                                          Spacy.i grandchild] |}]
           else [])
        (Spacy.children child)
    else [])
   ++ (if String.eqb (Spacy.dep_ child) "prt" then
         [{| p_t := Spacy.lemma_ token ++ " " ++ Spacy.lemma_ child;
             p_kind := "phrasal";
             p_surface := _span_text [Spacy.i token; Spacy.i child] |}]
       else [])
   ++ (if String.eqb (Spacy.dep_ child) "dobj" then
         [{| p_t := Spacy.lemma_ token ++ " " ++ Spacy.lemma_ child;
             p_kind := "VO";
             p_surface := _span_text [Spacy.i token; Spacy.i child] |}]
       else []))%list.

(** The patterns that one child of a noun gives. *)
Definition noun_child_patterns (token child : Spacy.tok) : list Pattern :=
  ((if String.eqb (Spacy.dep_ child) "amod" && String.eqb (Spacy.pos_ child) "ADJ"
    then [{| p_t := Spacy.lemma_ child ++ " " ++ Spacy.lemma_ token;
             p_kind := "adjn";
             p_surface := _span_text [Spacy.i token; Spacy.i child] |}]
    else [])
   ++ (if String.eqb (Spacy.dep_ child) "compound"
          && String.eqb (Spacy.pos_ child) "NOUN"
       then [{| p_t := Spacy.lemma_ child ++ " " ++ Spacy.lemma_ token;
                p_kind := "nn";
                p_surface := _span_text [Spacy.i token; Spacy.i child] |}]
       else []))%list.

(** The patterns that one token of the document gives. *)
Definition token_patterns (token : Spacy.tok) : list Pattern :=
  ((if String.eqb (Spacy.pos_ token) "VERB"
    then flat_map (verb_child_patterns token) (Spacy.children token)
    else [])
   ++ (if String.eqb (Spacy.pos_ token) "NOUN"
       then flat_map (noun_child_patterns token) (Spacy.children token)
       else []))%list.

Definition extract_pattern_phrases (doc : list Spacy.tok) : list Pattern :=
  flat_map token_patterns doc.

End Patterns.

(** ** [processor.py]: storage paths *)

(** What a call gives: a value, or the name of the exception raised. *)
Inductive outcome (A : Type) : Type :=
| Return (a : A)
| Raise (exc : string).
Arguments Return {A} a.
Arguments Raise {A} exc.

(** [s.replace(sub, "")] for a non-empty [sub]: the occurrences of [sub]
    are removed from left to right; [skip] is the number of characters
    still to drop of the occurrence being removed. *)
Fixpoint remove_from (sub : string) (skip : nat) (s : string) : string :=
  match s with
  | EmptyString => EmptyString
  | String c r =>
      match skip with
      | S k => remove_from sub k r
      | O =>
          if String.prefix sub s then remove_from sub (String.length sub - 1) r
          else String c (remove_from sub 0 r)
      end
  end.

Definition remove_all (sub s : string) : string := remove_from sub 0 s.

(** [s.split(sep, 1)] for a one-character separator: the parts before and
    after the first separator, or nothing when there is none (the list then
    has the single element [s]). *)
Fixpoint split_once (sep : ascii) (s : string) : option (string * string) :=
  match s with
  | EmptyString => None
  | String c r =>
      if Ascii.eqb c sep then Some (EmptyString, r)
      else
        match split_once sep r with
        | Some (a, b) => Some (String c a, b)
        | None => None
        end
  end.

Definition parse_gs_url (gs_path : string) : outcome (string * string) :=
  if Py.falsy gs_path || negb (String.prefix "gs://" gs_path)
  then Raise "ValueError"
  else
    match split_once "/" (remove_all "gs://" gs_path) with
    | Some (bucket, path) => Return (bucket, path)
    | None => Raise "IndexError"
    end.

(** [sub] occurs somewhere in [s]. *)
Fixpoint occurs (sub s : string) : bool :=
  String.prefix sub s
  || match s with
     | EmptyString => false
     | String _ r => occurs sub r
     end.

(** The character [c] occurs in [s]. *)
Fixpoint has_char (c : ascii) (s : string) : bool :=
  match s with
  | EmptyString => false
  | String c' r => Ascii.eqb c' c || has_char c r
  end.

(** * Properties *)

(** ** Dictionaries *)

Section DictFacts.
Context {V : Type}.
Implicit Types (d : Dict.t V) (k : string) (f : option V -> V).

Lemma get_update_same d k f :
  Dict.get (Dict.update k f d) k = Some (f (Dict.get d k)).
Proof.
  induction d as [|[k' v] r IH]; simpl.
  - now rewrite String.eqb_refl.
  - destruct (String.eqb k k') eqn:E; simpl; rewrite E; auto.
Qed.

Lemma get_update_other d k k' f :
  k <> k' -> Dict.get (Dict.update k f d) k' = Dict.get d k'.
Proof.
  intros Hne. induction d as [|[k0 v] r IH]; simpl.
  - destruct (String.eqb k' k) eqn:E; auto.
    apply String.eqb_eq in E. congruence.
  - destruct (String.eqb k k0) eqn:E; simpl.
    + apply String.eqb_eq in E. subst k0.
      destruct (String.eqb k' k) eqn:E'; auto.
      apply String.eqb_eq in E'. congruence.
    + now rewrite IH.
Qed.

Lemma get_In d k v : Dict.get d k = Some v -> In (k, v) d.
Proof.
  induction d as [|[k' v'] r IH]; simpl; [discriminate|].
  destruct (String.eqb k k') eqn:E.
  - apply String.eqb_eq in E. intros [= ->]. subst. now left.
  - auto.
Qed.

Lemma get_None_keys d k : Dict.get d k = None <-> ~ In k (Dict.keys d).
Proof.
  induction d as [|[k' v'] r IH]; simpl.
  - tauto.
  - destruct (String.eqb k k') eqn:E.
    + apply String.eqb_eq in E. subst. split; [discriminate | tauto].
    + apply String.eqb_neq in E. rewrite IH. split; [intros H [?|?] | ]; intuition congruence.
Qed.

Lemma In_get d k v :
  NoDup (Dict.keys d) -> In (k, v) d -> Dict.get d k = Some v.
Proof.
  induction d as [|[k' v'] r IH]; simpl; [tauto|].
  intros Hnd [H|H].
  - injection H as -> ->. now rewrite String.eqb_refl.
  - inversion Hnd as [|? ? Hni Hnd']; subst.
    destruct (String.eqb k k') eqn:E.
    + apply String.eqb_eq in E. subst. exfalso. apply Hni.
      change (In (fst (k', v)) (map fst r)). now apply in_map.
    + auto.
Qed.

Lemma keys_update d k f :
  Dict.keys (Dict.update k f d) =
  match Dict.get d k with
  | Some _ => Dict.keys d
  | None => (Dict.keys d ++ [k])%list
  end.
Proof.
  induction d as [|[k' v'] r IH]; simpl; auto.
  destruct (String.eqb k k') eqn:E; simpl; auto.
  rewrite IH. now destruct (Dict.get r k).
Qed.

Lemma In_keys_update d k k' f :
  In k' (Dict.keys (Dict.update k f d)) <-> k' = k \/ In k' (Dict.keys d).
Proof.
  rewrite keys_update. destruct (Dict.get d k) eqn:E.
  - split; auto. intros [->|]; auto.
    apply get_In in E. change k with (fst (k, v)). now apply in_map.
  - rewrite in_app_iff. simpl. intuition.
Qed.

Lemma NoDup_keys_update d k f :
  NoDup (Dict.keys d) -> NoDup (Dict.keys (Dict.update k f d)).
Proof.
  intros Hnd. rewrite keys_update. destruct (Dict.get d k) eqn:E; auto.
  apply get_None_keys in E.
  apply NoDup_rev in Hnd. rewrite <- (rev_involutive (_ ++ _)).
  apply NoDup_rev. rewrite rev_app_distr. simpl. constructor; auto.
  now rewrite <- in_rev.
Qed.
End DictFacts.

(** Folding per-key updates: the value of key [k] only sees the updates
    made under [k], in order. *)
Section FoldUpdate.
Context {X V : Type} (key : X -> string) (g : X -> option V -> V).

Local Abbreviation upd_step := (upd_step key g).
Local Abbreviation under := (under key).

Lemma get_fold_update xs : forall d k,
  Dict.get (fold_left upd_step xs d) k =
  fold_left (fun o x => Some (g x o)) (under k xs) (Dict.get d k).
Proof.
  induction xs as [|x xs IH]; intros d k; simpl; auto.
  rewrite IH. unfold upd_step.
  destruct (String.eqb (key x) k) eqn:E; simpl.
  - apply String.eqb_eq in E. subst k. now rewrite get_update_same.
  - apply String.eqb_neq in E. now rewrite get_update_other.
Qed.

Lemma keys_fold_update xs : forall d k,
  In k (Dict.keys (fold_left upd_step xs d)) <->
  In k (Dict.keys d) \/ In k (map key xs).
Proof.
  induction xs as [|x xs IH]; intros d k; simpl; [tauto|].
  rewrite IH. unfold upd_step. rewrite In_keys_update.
  intuition congruence.
Qed.

Lemma NoDup_keys_fold_update xs : forall d,
  NoDup (Dict.keys d) -> NoDup (Dict.keys (fold_left upd_step xs d)).
Proof.
  induction xs as [|x xs IH]; intros d Hd; simpl; auto.
  apply IH. now apply NoDup_keys_update.
Qed.
End FoldUpdate.

(** ** Counters and sets *)

Lemma counter_incr_upd {X} (key : X -> string) c x :
  counter_incr (key x) c = upd_step key (fun _ => incr_value) c x.
Proof. reflexivity. Qed.

Lemma fold_incr_value {X} (l : list X) : forall o,
  fold_left (fun o _ => Some (incr_value o)) l o =
  match l, o with
  | [], _ => o
  | _, Some v => Some (v + Z.of_nat (List.length l))
  | _, None => Some (Z.of_nat (List.length l))
  end.
Proof.
  induction l as [|x l IH]; intros o; [now destruct o|].
  cbn [fold_left]. rewrite IH.
  destruct l; destruct o; cbn [incr_value List.length]; f_equal; lia.
Qed.

(** After counting, a key holds the number of times it was counted. *)
Lemma get_counter_fold {X} (key : X -> string) (xs : list X) (k : string) :
  Dict.get (fold_left (fun c x => counter_incr (key x) c) xs []) k =
  match under key k xs with
  | [] => None
  | l => Some (Z.of_nat (List.length l))
  end.
Proof.
  change (fold_left (fun c x => counter_incr (key x) c) xs [])
    with (fold_left (upd_step key (fun _ => incr_value)) xs []).
  rewrite get_fold_update. rewrite fold_incr_value. simpl.
  now destruct (under key k xs).
Qed.

Lemma mem_In x s : Py.mem x s = true <-> In x s.
Proof.
  unfold Py.mem. rewrite existsb_exists. split.
  - intros [y [Hy E]]. apply String.eqb_eq in E. now subst.
  - intros H. exists x. split; auto. apply String.eqb_refl.
Qed.

Lemma In_set_add x y s : In y (set_add x s) <-> y = x \/ In y s.
Proof.
  unfold set_add. destruct (Py.mem x s) eqn:E.
  - apply mem_In in E. intuition congruence.
  - rewrite in_app_iff. simpl. intuition.
Qed.

Lemma NoDup_set_add x s : NoDup s -> NoDup (set_add x s).
Proof.
  intros Hs. unfold set_add. destruct (Py.mem x s) eqn:E; auto.
  assert (Hx : ~ In x s) by (rewrite <- mem_In; congruence).
  apply NoDup_rev in Hs. rewrite <- (rev_involutive (_ ++ _)).
  apply NoDup_rev. rewrite rev_app_distr. simpl. constructor; auto.
  now rewrite <- in_rev.
Qed.

Lemma fold_set_add_spec xs : forall s,
  NoDup s ->
  NoDup (fold_left (fun s x => set_add x s) xs s) /\
  (forall y, In y (fold_left (fun s x => set_add x s) xs s) <-> In y s \/ In y xs).
Proof.
  induction xs as [|x xs IH]; intros s Hs; simpl.
  - split; auto. tauto.
  - destruct (IH (set_add x s) (NoDup_set_add x s Hs)) as [H1 H2].
    split; auto. intros y. rewrite H2, In_set_add. intuition.
Qed.

(** A set built by [add] has as many elements as there are distinct
    values added. *)
Lemma length_set_of xs :
  List.length (set_of xs) = List.length (nodup string_dec xs).
Proof.
  destruct (fold_set_add_spec xs [] (NoDup_nil _)) as [H1 H2].
  apply Permutation_length. apply NoDup_Permutation; auto.
  - apply NoDup_nodup.
  - intros y. unfold set_of. rewrite H2, nodup_In. simpl. tauto.
Qed.

Lemma fold_add_value xs : forall o,
  match fold_left (fun o x => Some (add_value x o)) xs o with
  | Some s => s
  | None => []
  end = fold_left (fun s x => set_add x s) xs
          match o with Some s => s | None => [] end.
Proof.
  induction xs as [|x xs IH]; intros o; simpl; auto.
  rewrite IH. now destruct o.
Qed.

(** After collecting, a key holds the set of the values added under it. *)
Lemma get_set_fold {X} (key val : X -> string) (xs : list X) (k : string) :
  Dict.get_default
    (fold_left (fun d x => dict_set_add (key x) (val x) d) xs []) k [] =
  set_of (map val (under key k xs)).
Proof.
  unfold Dict.get_default.
  change (fold_left (fun d x => dict_set_add (key x) (val x) d) xs [])
    with (fold_left (upd_step key (fun x => add_value (val x))) xs []).
  rewrite get_fold_update. simpl. unfold set_of.
  rewrite <- (fold_add_value (map val (under key k xs)) None).
  f_equal. generalize (@None (list string)).
  induction (under key k xs) as [|x l IH]; intros o; simpl; auto.
Qed.

Lemma last_cons {V} (l : list V) : forall a d, last (a :: l) d = last l a.
Proof.
  induction l as [|b l IH]; intros a d; [reflexivity|].
  change (last (a :: b :: l) d) with (last (b :: l) d).
  now rewrite !IH.
Qed.

(** After repeated assignment, a key holds the last value assigned. *)
Lemma get_assign_fold {X V} (key : X -> string) (val : X -> V) (xs : list X)
  (k : string) (dflt : V) :
  Dict.get_default
    (fold_left (fun d x => Dict.update (key x) (fun _ => val x) d) xs []) k dflt =
  last (map val (under key k xs)) dflt.
Proof.
  unfold Dict.get_default.
  change (fold_left (fun d x => Dict.update (key x) (fun _ => val x) d) xs [])
    with (fold_left (upd_step key (fun x _ => val x)) xs []).
  rewrite get_fold_update. simpl.
  assert (H : forall l o,
    match fold_left (fun (_ : option V) x => Some (val x)) l o with
    | Some v => v | None => dflt end =
    last (map val l) match o with Some v => v | None => dflt end).
  { induction l as [|x l IH]; intros o; auto.
    cbn [fold_left map]. rewrite IH. now rewrite last_cons. }
  apply (H _ None).
Qed.

(** ** Stable sorting *)

Section SortFacts.
Context {A : Type} (before : A -> A -> bool).

Local Abbreviation ordered := (ordered before).

Lemma insert_perm x l : Permutation (insert before x l) (x :: l).
Proof.
  induction l as [|y r IH]; simpl; auto.
  destruct (before y x); auto.
  rewrite IH. apply perm_swap.
Qed.

Lemma stable_sort_perm l : Permutation (stable_sort before l) l.
Proof.
  induction l as [|x l IH]; simpl; auto.
  rewrite insert_perm. now constructor.
Qed.

Lemma stable_sort_length l : List.length (stable_sort before l) = List.length l.
Proof. apply Permutation_length, stable_sort_perm. Qed.

Lemma stable_sort_In x l : In x (stable_sort before l) <-> In x l.
Proof.
  split; apply Permutation_in; [|symmetry]; apply stable_sort_perm.
Qed.

Hypothesis before_asym : forall x y, before x y = true -> before y x = false.
Hypothesis ordered_trans : forall x y z, ordered x y -> ordered y z -> ordered x z.

Lemma insert_sorted x l :
  StronglySorted ordered l -> StronglySorted ordered (insert before x l).
Proof.
  induction 1 as [|y r Hr IH Hy]; simpl.
  - constructor; constructor.
  - destruct (before y x) eqn:E.
    + constructor; auto.
      rewrite Forall_forall in *. intros z Hz.
      apply (Permutation_in _ (insert_perm x r)) in Hz.
      destruct Hz as [<-|Hz]; auto. now apply before_asym.
    + constructor; [constructor; auto|].
      constructor; auto.
      rewrite Forall_forall in *. intros z Hz.
      apply ordered_trans with y; auto.
Qed.

Lemma stable_sort_sorted l : StronglySorted ordered (stable_sort before l).
Proof.
  induction l as [|x l IH]; simpl; [constructor|now apply insert_sorted].
Qed.
End SortFacts.


Lemma sorted_firstn {A} (R : A -> A -> Prop) (l : list A) k :
  StronglySorted R l -> StronglySorted R (firstn k l).
Proof.
  intros H. revert k. induction H as [|a l Hl IH Ha]; intros k.
  - rewrite firstn_nil. constructor.
  - destruct k; simpl; constructor; auto.
    rewrite Forall_forall in *. intros x Hx. apply Ha.
    rewrite <- (firstn_skipn k l). apply in_or_app. now left.
Qed.

Lemma In_firstn {A} (l : list A) k x : In x (firstn k l) -> In x l.
Proof.
  intros H. rewrite <- (firstn_skipn k l). apply in_or_app. now left.
Qed.

(** Sorting commutes with a map that respects the order. *)
Lemma stable_sort_map {A B} (f : A -> B) (before : A -> A -> bool)
  (before' : B -> B -> bool) :
  (forall x y, before' (f x) (f y) = before x y) ->
  forall l, map f (stable_sort before l) = stable_sort before' (map f l).
Proof.
  intros Hf. induction l as [|x l IH]; simpl; auto.
  rewrite <- IH. generalize (stable_sort before l) as s.
  induction s as [|y s IHs]; simpl; auto.
  rewrite Hf. destruct (before y x); simpl; congruence.
Qed.

(** ** Lexical tiers *)

Example rarity_tier_common : rarity_tier "Go " = 0.
Proof. reflexivity. Qed.

Example rarity_tier_moderate : rarity_tier "agree" = 1.
Proof. reflexivity. Qed.

Example rarity_tier_rare : rarity_tier "reckon" = 2.
Proof. reflexivity. Qed.

Example split_words : Py.split "  folks  reckon it " = ["folks"; "reckon"; "it"].
Proof. reflexivity. Qed.

Example strip_blanks : Py.strip "  a b  " = "a b".
Proof. reflexivity. Qed.

Example blank_phrase_not_distinctive : phrase_has_distinctive_word "  " = false.
Proof. reflexivity. Qed.

Example blank_pattern_head_common : head_lemma_is_common "  " = true.
Proof. reflexivity. Qed.

Lemma rarity_tier_range lemma :
  rarity_tier lemma = 0 \/ rarity_tier lemma = 1 \/ rarity_tier lemma = 2.
Proof.
  unfold rarity_tier.
  destruct (Py.falsy lemma); auto.
  destruct (Py.mem _ COMMON_LEMMAS); auto.
  destruct (Py.mem _ MODERATE_LEMMAS); auto.
Qed.

(** A lemma that [is_common_lemma] lets through is never of tier 0: the two
    functions test the same string against the same set. *)
Lemma rarity_tier_not_common lemma :
  is_common_lemma lemma = false -> rarity_tier lemma = 1 \/ rarity_tier lemma = 2.
Proof.
  unfold is_common_lemma, rarity_tier.
  destruct (Py.falsy lemma); [discriminate|].
  destruct (Py.mem _ COMMON_LEMMAS); [discriminate|].
  destruct (Py.mem _ MODERATE_LEMMAS); auto.
Qed.

(** C6 (code): the empty string is of tier 0, but a string made of one
    space passes the emptiness test, is stripped to the empty string, is
    found in neither table and is classified rare (tier 2); the sibling
    predicates on phrases and patterns do test the stripped string. *)
Theorem rarity_tier_blank :
  rarity_tier "" = 0 /\ rarity_tier " " = 2
  /\ phrase_has_distinctive_word " " = false
  /\ head_lemma_is_common " " = true.
Proof. repeat split; reflexivity. Qed.

(** ** Vocabulary *)

Lemma vocab_counter_fold tokens : forall st,
  vs_counter (fold_left vocab_step tokens st) =
  fold_left (fun c t => counter_incr (lemma t) c) (filter counted tokens)
            (vs_counter st).
Proof.
  induction tokens as [|t ts IH]; intros st; simpl; auto.
  rewrite IH. unfold vocab_step, counted.
  destruct (Py.mem (pos t) CONTENT_POS && negb (is_stop t)); simpl; auto.
  destruct (is_common_lemma (lemma t)); simpl; auto.
Qed.

Lemma vocab_total_fold tokens : forall st,
  vs_total_tokens (fold_left vocab_step tokens st) =
  vs_total_tokens st
  + Z.of_nat (List.length (filter (fun t => negb (skipped t)) tokens)).
Proof.
  induction tokens as [|t ts IH]; intros st; simpl; [lia|].
  rewrite IH. unfold vocab_step, skipped.
  destruct (Py.mem (pos t) CONTENT_POS && negb (is_stop t)); simpl; [|lia].
  destruct (is_common_lemma (lemma t)); simpl; lia.
Qed.

Lemma vocab_keys tokens k :
  In k (Dict.keys (vs_counter (fold_left vocab_step tokens vocab_init))) <->
  In k (map lemma (filter counted tokens)).
Proof.
  rewrite vocab_counter_fold. simpl.
  change (fold_left (fun c t => counter_incr (lemma t) c) (filter counted tokens) [])
    with (fold_left (upd_step lemma (fun _ => incr_value)) (filter counted tokens) []).
  rewrite keys_fold_update. simpl. tauto.
Qed.

Lemma vocab_keys_NoDup tokens :
  NoDup (Dict.keys (vs_counter (fold_left vocab_step tokens vocab_init))).
Proof.
  rewrite vocab_counter_fold. simpl.
  change (fold_left (fun c t => counter_incr (lemma t) c) (filter counted tokens) [])
    with (fold_left (upd_step lemma (fun _ => incr_value)) (filter counted tokens) []).
  apply NoDup_keys_fold_update. constructor.
Qed.

Lemma vocab_total_zero tokens :
  vs_total_tokens (fold_left vocab_step tokens vocab_init) = 0 ->
  vs_counter (fold_left vocab_step tokens vocab_init) = [].
Proof.
  rewrite vocab_total_fold, vocab_counter_fold. simpl. intros H.
  assert (Hc : filter counted tokens = []).
  { clear - H. induction tokens as [|t ts IH]; simpl in *; auto.
    unfold counted at 1. unfold skipped at 1 in H.
    destruct (Py.mem (pos t) CONTENT_POS && negb (is_stop t)); simpl in *.
    - destruct (is_common_lemma (lemma t)); simpl in *; [auto|lia].
    - lia. }
  now rewrite Hc.
Qed.

(** The result is always the first 1000 entries of the sorted list: when
    nothing was counted towards the total there are no entries either. *)
Lemma extract_vocabulary_eq set_order tokens :
  extract_vocabulary set_order tokens =
  firstn 1000
    (stable_sort (fun y x => lex_ltb (vocab_key y) (vocab_key x))
                 (vocab_entries set_order tokens)).
Proof.
  unfold extract_vocabulary.
  destruct (Z.eqb_spec (vs_total_tokens (fold_left vocab_step tokens vocab_init)) 0)
    as [E|E]; auto.
  unfold vocab_entries. now rewrite (vocab_total_zero _ E).
Qed.

Lemma vocab_entries_t set_order tokens :
  map v_t (vocab_entries set_order tokens) =
  Dict.keys (vs_counter (fold_left vocab_step tokens vocab_init)).
Proof.
  unfold vocab_entries, Dict.keys. rewrite map_map.
  apply map_ext. now intros [l c].
Qed.

Lemma In_extract_vocabulary set_order tokens x :
  In x (extract_vocabulary set_order tokens) ->
  In x (vocab_entries set_order tokens).
Proof.
  rewrite extract_vocabulary_eq. intros H.
  apply In_firstn in H. now apply stable_sort_In in H.
Qed.

Lemma vocab_entry_inv set_order tokens x :
  In x (vocab_entries set_order tokens) ->
  In (v_t x) (map lemma (filter counted tokens))
  /\ v_r x = rarity_tier (v_t x)
  /\ v_c x = Z.of_nat (List.length (under lemma (v_t x) (filter counted tokens)))
  /\ v_p10k x =
     round2 (IZR (v_c x)
             / IZR (Z.of_nat (List.length (filter (fun t => negb (skipped t)) tokens)))
             * 10000).
Proof.
  unfold vocab_entries. intros H. apply in_map_iff in H.
  destruct H as [[l c] [<- H]]. cbn [vocab_item v_t v_r v_c v_p10k].
  assert (Hk : In l (map lemma (filter counted tokens))).
  { apply vocab_keys. change l with (fst (l, c)). now apply in_map. }
  repeat split; auto.
  - apply In_get in H; [|apply vocab_keys_NoDup].
    rewrite vocab_counter_fold in H. simpl in H.
    rewrite (get_counter_fold lemma) in H.
    destruct (under lemma l (filter counted tokens)); congruence.
  - now rewrite vocab_total_fold.
Qed.

(** C10: no entry of the vocabulary is of tier 0. *)
Theorem extract_vocabulary_tier set_order tokens :
  Forall (fun x => v_r x = 1 \/ v_r x = 2) (extract_vocabulary set_order tokens).
Proof.
  apply Forall_forall. intros x Hx.
  apply In_extract_vocabulary, vocab_entry_inv in Hx.
  destruct Hx as (Hk & -> & _).
  apply rarity_tier_not_common.
  apply in_map_iff in Hk. destruct Hk as [t [<- Ht]].
  apply filter_In in Ht. destruct Ht as [_ Ht].
  unfold counted in Ht. apply andb_true_iff in Ht.
  now apply negb_true_iff.
Qed.

(** ** Rounding *)

Lemma round_half_even_IZR k : round_half_even (IZR k) = k.
Proof.
  unfold round_half_even. rewrite ZfloorZ.
  destruct (Rlt_dec (IZR k - IZR k) (1 / 2)) as [_|H]; auto.
  exfalso. apply H. lra.
Qed.

Lemma round2_hundredths x k : (x * 100 = IZR k)%R -> round2 x = (IZR k / 100)%R.
Proof. intros H. unfold round2. now rewrite H, round_half_even_IZR. Qed.

Lemma round_half_even_bounds x :
  (IZR (Zfloor x) <= IZR (round_half_even x) <= IZR (Zfloor x) + 1)%R.
Proof.
  unfold round_half_even.
  destruct (Rlt_dec _ _); [lra|].
  destruct (Rlt_dec _ _); [rewrite plus_IZR; lra|].
  destruct (Z.even _); [lra|rewrite plus_IZR; lra].
Qed.

Lemma round_half_even_mono x y :
  (x <= y)%R -> round_half_even x <= round_half_even y.
Proof.
  intros Hxy. pose proof (Zfloor_le x y Hxy) as Hf.
  destruct (Z.eq_dec (Zfloor x) (Zfloor y)) as [E|E].
  - unfold round_half_even. rewrite E.
    destruct (Rlt_dec (x - IZR (Zfloor y)) (1 / 2)) as [Hx|Hx];
    destruct (Rlt_dec (y - IZR (Zfloor y)) (1 / 2)) as [Hy|Hy];
    try destruct (Rlt_dec (1 / 2) (x - IZR (Zfloor y))) as [Hx'|Hx'];
    try destruct (Rlt_dec (1 / 2) (y - IZR (Zfloor y))) as [Hy'|Hy'];
    try destruct (Z.even (Zfloor y)); try lia; exfalso; lra.
  - apply le_IZR.
    pose proof (round_half_even_bounds x) as Hx.
    pose proof (round_half_even_bounds y) as Hy.
    assert (Zfloor x + 1 <= Zfloor y) as H by lia.
    apply IZR_le in H. rewrite plus_IZR in H. lra.
Qed.

Lemma round2_mono x y : (x <= y)%R -> (round2 x <= round2 y)%R.
Proof.
  intros H. unfold round2.
  assert (IZR (round_half_even (x * 100)) <= IZR (round_half_even (y * 100)))%R.
  { apply IZR_le, round_half_even_mono. lra. }
  lra.
Qed.

(** ** Vocabulary rate *)

(** The rate of every entry divides by the number of tokens on which the
    loop did not take [continue]. *)
Lemma extract_vocabulary_rate set_order tokens :
  Forall
    (fun x =>
       v_p10k x =
       round2 (IZR (v_c x)
               / IZR (Z.of_nat (List.length (filter (fun t => negb (skipped t)) tokens)))
               * 10000))
    (extract_vocabulary set_order tokens).
Proof.
  apply Forall_forall. intros x Hx.
  now apply In_extract_vocabulary, vocab_entry_inv in Hx.
Qed.

(** C4 (code): of the two tokens "go" and "reckon" only the second is
    counted towards the total, so the rate of "reckon" is 10000 where one
    occurrence in two tokens would give 5000. *)
Theorem vocabulary_rate_skips_common :
  map (fun x => (v_t x, v_c x)) (extract_vocabulary (fun s => s) rate_tokens)
  = [("reckon", 1)]
  /\ Forall (fun x => v_p10k x = 10000%R)
            (extract_vocabulary (fun s => s) rate_tokens)
  /\ round2 (IZR 1 / IZR (Z.of_nat (List.length rate_tokens)) * 10000) = 5000%R
  /\ 10000%R <> 5000%R.
Proof.
  split; [vm_compute; reflexivity|]. split; [|split].
  - apply Forall_forall. intros x Hx.
    apply In_extract_vocabulary, vocab_entry_inv in Hx.
    destruct Hx as (Hk & _ & Hc & Hr). rewrite Hr, Hc.
    change (map lemma (filter counted rate_tokens)) with ["reckon"] in Hk.
    destruct Hk as [<-|[]].
    change (Z.of_nat (List.length (under lemma "reckon" (filter counted rate_tokens))))
      with 1.
    change (Z.of_nat (List.length (filter (fun t => negb (skipped t)) rate_tokens)))
      with 1.
    rewrite (round2_hundredths _ 1000000); lra.
  - change (Z.of_nat (List.length rate_tokens)) with 2.
    rewrite (round2_hundredths _ 500000); lra.
  - lra.
Qed.

(** The same on the 10,000 tokens of the specification's example: with
    9,993 of them common verbs, the rate of the lemma that occurs 7 times is
    10000 and not 7. *)
Example vocabulary_rate_10000 :
  Z.of_nat (List.length rate_tokens_10000) = 10000
  /\ map (fun x => (v_t x, v_c x)) (extract_vocabulary (fun s => s) rate_tokens_10000)
     = [("reckon", 7)]
  /\ Forall (fun x => v_p10k x = 10000%R)
            (extract_vocabulary (fun s => s) rate_tokens_10000).
Proof.
  split; [vm_compute; reflexivity|]. split; [vm_compute; reflexivity|].
  apply Forall_forall. intros x Hx.
  apply In_extract_vocabulary, vocab_entry_inv in Hx.
  destruct Hx as (Hk & _ & Hc & Hr). rewrite Hr, Hc.
  assert (E1 : map lemma (filter counted rate_tokens_10000) = repeat "reckon" 7)
    by (vm_compute; reflexivity).
  rewrite E1 in Hk. apply repeat_spec in Hk. rewrite Hk.
  assert (E2 : Z.of_nat (List.length (under lemma "reckon" (filter counted rate_tokens_10000))) = 7)
    by (vm_compute; reflexivity).
  assert (E3 : Z.of_nat (List.length (filter (fun t => negb (skipped t)) rate_tokens_10000)) = 7)
    by (vm_compute; reflexivity).
  rewrite E2, E3. rewrite (round2_hundredths _ 1000000); lra.
Qed.

(** ** Vocabulary order and cap *)




Lemma StronglySorted_impl {A} (R R' : A -> A -> Prop) l :
  (forall x y, R x y -> R' x y) -> StronglySorted R l -> StronglySorted R' l.
Proof.
  intros HR. induction 1 as [|a l Hl IH Ha]; constructor; auto.
  eapply Forall_impl; [|exact Ha]. auto.
Qed.




(** ** Pattern aggregation *)

Lemma fold_left_flat_map {A B C} (f : A -> C -> A) (g : B -> list C) (l : list B) :
  forall a,
  fold_left f (flat_map g l) a = fold_left (fun a x => fold_left f (g x) a) l a.
Proof.
  induction l as [|x l IH]; intros a; simpl; auto.
  now rewrite fold_left_app, IH.
Qed.

Lemma fold_left_map {A B C} (f : A -> C -> A) (g : B -> C) (l : list B) :
  forall a, fold_left f (map g l) a = fold_left (fun a x => f a (g x)) l a.
Proof. induction l as [|x l IH]; intros a; simpl; auto. Qed.

Lemma pattern_state_flat all_patterns st :
  fold_left pattern_doc_step all_patterns st =
  fold_left pattern_occ_step (pattern_occurrences all_patterns) st.
Proof.
  unfold pattern_occurrences. rewrite fold_left_flat_map.
  revert st. induction all_patterns as [|[d ps] l IH]; intros st; simpl; auto.
  rewrite IH. f_equal. now rewrite fold_left_map.
Qed.

Lemma pattern_count_fold os : forall st,
  pt_pattern_count (fold_left pattern_occ_step os st) =
  fold_left (fun c o => counter_incr (occ_key o) c) os (pt_pattern_count st).
Proof. induction os as [|o os IH]; intros st; simpl; [reflexivity|]. now rewrite IH. Qed.

Lemma pattern_docs_fold os : forall st,
  pt_pattern_docs (fold_left pattern_occ_step os st) =
  fold_left (fun d o => dict_set_add (occ_key o) (fst o) d) os (pt_pattern_docs st).
Proof. induction os as [|o os IH]; intros st; simpl; [reflexivity|]. now rewrite IH. Qed.

Lemma pattern_kind_fold os : forall st,
  pt_pattern_kind (fold_left pattern_occ_step os st) =
  fold_left (fun d o => Dict.update (occ_key o) (fun _ => p_kind (snd o)) d) os
            (pt_pattern_kind st).
Proof. induction os as [|o os IH]; intros st; simpl; [reflexivity|]. now rewrite IH. Qed.

Lemma In_most_common k c e : In e (most_common k c) -> In e c.
Proof.
  unfold most_common. intros H. apply In_firstn in H.
  now apply stable_sort_In in H.
Qed.

Lemma In_aggregate_patterns set_order all_patterns e :
  In e (aggregate_patterns set_order all_patterns) ->
  let st := fold_left pattern_doc_step all_patterns pattern_init in
  exists count,
    In (pp_t e, count) (pt_pattern_count st)
    /\ head_lemma_is_common (pp_t e) = false
    /\ e = pattern_item set_order st (pp_t e) count.
Proof.
  unfold aggregate_patterns. intros H. apply in_flat_map in H.
  destruct H as [[pat count] [Hin He]].
  destruct (head_lemma_is_common pat) eqn:Hh; [contradiction|].
  destruct He as [<-|[]]. simpl. exists count.
  repeat split; auto. now apply In_most_common in Hin.
Qed.

(** No key with a common head word is in the result. *)
Lemma aggregate_patterns_heads set_order all_patterns :
  Forall (fun e => head_lemma_is_common (pp_t e) = false)
         (aggregate_patterns set_order all_patterns).
Proof.
  apply Forall_forall. intros e He.
  apply In_aggregate_patterns in He. now destruct He as (c & _ & H & _).
Qed.

(** C8, as the code has it: an entry carries the kind of the last
    occurrence of its key, in document and occurrence order; its count is
    the number of occurrences of the key and its document frequency the
    number of distinct documents they are found in. *)
Theorem aggregate_patterns_entry set_order all_patterns :
  Forall
    (fun e =>
       let occs := under occ_key (pp_t e) (pattern_occurrences all_patterns) in
       occs <> []
       /\ pp_kind e = last (map (fun o => p_kind (snd o)) occs) ""
       /\ pp_c e = Z.of_nat (List.length occs)
       /\ pp_df e = Z.of_nat (List.length (nodup string_dec (map fst occs))))
    (aggregate_patterns set_order all_patterns).
Proof.
  apply Forall_forall. intros e He.
  apply In_aggregate_patterns in He. destruct He as (c & Hin & _ & He).
  rewrite pattern_state_flat in Hin, He.
  set (os := pattern_occurrences all_patterns) in *.
  apply In_get in Hin.
  2:{ rewrite pattern_count_fold. simpl.
      apply (NoDup_keys_fold_update occ_key (fun _ => incr_value)). constructor. }
  rewrite pattern_count_fold in Hin. simpl in Hin.
  rewrite (get_counter_fold occ_key) in Hin.
  set (st := fold_left pattern_occ_step os pattern_init) in *.
  assert (Hk : pp_kind e = Dict.get_default (pt_pattern_kind st) (pp_t e) "")
    by (rewrite He at 1; reflexivity).
  assert (Hc : pp_c e = c) by (rewrite He at 1; reflexivity).
  assert (Hd : pp_df e =
               Z.of_nat (List.length (Dict.get_default (pt_pattern_docs st) (pp_t e) [])))
    by (rewrite He at 1; reflexivity).
  cbv zeta. rewrite Hk, Hc, Hd. unfold st.
  rewrite pattern_kind_fold, pattern_docs_fold. simpl.
  rewrite (get_assign_fold occ_key (fun o => p_kind (snd o))).
  rewrite (get_set_fold occ_key fst), length_set_of.
  destruct (under occ_key (pp_t e) os) eqn:E; [discriminate|].
  repeat split; congruence.
Qed.

(** C8, as stated, fails: the key "gold ring" is first found as an
    adjective-noun pattern, and the entry says noun compound. *)
Lemma aggregate_patterns_first_kind_counterexample :
  ~ Forall
      (fun e =>
         pp_kind e =
         hd "" (map (fun o => p_kind (snd o))
                    (under occ_key (pp_t e) (pattern_occurrences kind_patterns))))
      (aggregate_patterns (fun s => s) kind_patterns).
Proof.
  intros H. vm_compute in H.
  inversion H as [|e l Hk _]. discriminate Hk.
Qed.

Example aggregate_patterns_kind_patterns :
  aggregate_patterns (fun s => s) kind_patterns =
  [{| pp_t := "gold ring"; pp_kind := "nn"; pp_c := 2; pp_df := 2;
      pp_surfaces := Some ["gold ring"] |}].
Proof. vm_compute. reflexivity. Qed.

(** C7 (code): with 1000 keys headed by "go" found twice each and the key
    "reckon so" found once, [most_common(1000)] keeps the 1000 keys
    headed by "go", the head filter then drops all of them, and the result
    is empty: "reckon so", the one key whose head is not common, is
    missing. *)
Theorem aggregate_patterns_cap_before_filter :
  aggregate_patterns (fun s => s) head_patterns = []
  /\ In "reckon so" (map occ_key (pattern_occurrences head_patterns))
  /\ filter (fun k => negb (head_lemma_is_common k))
            (set_of (map occ_key (pattern_occurrences head_patterns)))
     = ["reckon so"].
Proof.
  split; [vm_compute; reflexivity|].
  split; [|vm_compute; reflexivity].
  apply mem_In. vm_compute. reflexivity.
Qed.

(** ** Pointwise mutual information *)

Lemma fold_left_Rprod (f : string -> R) (l : list string) : forall a,
  fold_left (fun p w => (p * f w)%R) l a = (a * Rprod (map f l))%R.
Proof.
  induction l as [|w l IH]; intros a; simpl; [lra|].
  rewrite IH. lra.
Qed.

Lemma pmi_prod_Rprod unigram words :
  pmi_prod unigram words =
  Rprod (map (fun w => IZR (Dict.get_default unigram w 0%Z) + 0.01)%R words).
Proof. unfold pmi_prod. rewrite fold_left_Rprod. lra. Qed.

Lemma Rprod_pos l : Forall (fun x => 0 < x)%R l -> (0 < Rprod l)%R.
Proof.
  induction 1 as [|x l Hx Hl IH]; simpl; [lra|].
  now apply Rmult_lt_0_compat.
Qed.

Lemma smoothed_pos unigram words :
  (forall w, 0 <= Dict.get_default unigram w 0) ->
  Forall (fun x => 0 < x)%R
         (map (fun w => IZR (Dict.get_default unigram w 0%Z) + 0.01)%R words).
Proof.
  intros H. apply Forall_forall. intros x Hx.
  apply in_map_iff in Hx. destruct Hx as [w [<- _]].
  specialize (H w). apply IZR_le in H. lra.
Qed.

Lemma pmi_value_formula phrase c unigram T n :
  2 <= n -> Z.of_nat (List.length (Py.split phrase)) = n ->
  pmi_value phrase c unigram T n = pmi_formula (Py.split phrase) c unigram T.
Proof.
  intros Hn Hlen. unfold pmi_value, pmi_formula.
  rewrite pmi_prod_Rprod. do 3 f_equal.
  rewrite pow_powerRZ. f_equal. lia.
Qed.

Lemma pmi_guards phrase c unigram T n :
  T <= 0 \/ c <= 0 \/ n < 2 -> _pmi phrase c unigram T n = 0%R.
Proof.
  intros H. unfold _pmi.
  destruct (Z.leb_spec T 0); simpl; auto.
  destruct (Z.leb_spec c 0); simpl; auto.
  destruct (Z.ltb_spec n 2); simpl; auto. lia.
Qed.

Lemma pmi_unfold phrase c unigram T n :
  0 < T -> 0 < c -> 2 <= n -> Z.of_nat (List.length (Py.split phrase)) = n ->
  _pmi phrase c unigram T n = round2 (pmi_value phrase c unigram T n).
Proof.
  intros HT Hc Hn Hlen. unfold _pmi.
  destruct (Z.leb_spec T 0); [lia|].
  destruct (Z.leb_spec c 0); [lia|].
  destruct (Z.ltb_spec n 2); [lia|]. simpl.
  rewrite Hlen, Z.eqb_refl. reflexivity.
Qed.

(** C2: outside the guards the result is the rounded formula, whose
    denominator and whose logarithm's argument are positive when no
    unigram count is negative; inside them it is 0. *)
Theorem pmi_guards_and_formula phrase c unigram T n :
  (T <= 0 \/ c <= 0 \/ n < 2 -> _pmi phrase c unigram T n = 0%R)
  /\ (0 < T -> 0 < c -> 2 <= n ->
      Z.of_nat (List.length (Py.split phrase)) = n ->
      _pmi phrase c unigram T n
      = round2 (pmi_formula (Py.split phrase) c unigram T)
      /\ ((forall w, 0 <= Dict.get_default unigram w 0) ->
          let prod :=
            Rprod (map (fun w => IZR (Dict.get_default unigram w 0%Z) + 0.01)%R
                       (Py.split phrase)) in
          let num :=
            ((IZR c + 0.01)
             * (IZR T + 0.01) ^ (List.length (Py.split phrase) - 1))%R in
          (0 < prod + 1e-10)%R /\ (0 < num / (prod + 1e-10))%R)).
Proof.
  split; [apply pmi_guards|].
  intros HT Hc Hn Hlen. split.
  - rewrite pmi_unfold by assumption. f_equal. now apply pmi_value_formula.
  - intros Hu prod num.
    assert (Hp : (0 < prod)%R) by (apply Rprod_pos, smoothed_pos, Hu).
    assert (Hd : (0 < prod + 1e-10)%R) by lra.
    split; auto.
    apply Rdiv_lt_0_compat; auto. unfold num.
    apply Rmult_lt_0_compat.
    + apply IZR_lt in Hc. lra.
    + apply pow_lt. apply IZR_lt in HT. lra.
Qed.

Lemma Rdiv_le_upper a b c : (0 < b)%R -> (a <= c * b)%R -> (a / b <= c)%R.
Proof.
  intros Hb H. apply Rmult_le_reg_r with b; auto.
  unfold Rdiv. rewrite Rmult_assoc, Rinv_l; lra.
Qed.

Lemma Rdiv_le_lower a b c : (0 < b)%R -> (c * b <= a)%R -> (c <= a / b)%R.
Proof.
  intros Hb H. apply Rmult_le_reg_r with b; auto.
  unfold Rdiv. rewrite Rmult_assoc, Rinv_l; lra.
Qed.

Lemma Rdiv_lt_denominator a b b' :
  (0 < a)%R -> (0 < b)%R -> (b < b')%R -> (a / b' < a / b)%R.
Proof.
  intros Ha Hb Hbb. unfold Rdiv. apply Rmult_lt_compat_l; auto.
  apply Rinv_lt_contravar; auto. apply Rmult_lt_0_compat; lra.
Qed.

Lemma ln_upper y : (0 < y)%R -> (ln y <= y - 1)%R.
Proof.
  intros Hy. pose proof (exp_ineq1_le (ln y)) as H.
  rewrite exp_ln in H by assumption. lra.
Qed.

Lemma ln_lower y : (0 < y)%R -> (1 - / y <= ln y)%R.
Proof.
  intros Hy. assert (Hi : (0 < / y)%R) by now apply Rinv_0_lt_compat.
  pose proof (ln_upper (/ y) Hi) as H.
  rewrite ln_Rinv in H by assumption. lra.
Qed.

Lemma ln_2_pos : (0 < ln 2)%R.
Proof. pose proof ln_lt_2. lra. Qed.

Lemma log2_increasing x y : (0 < x)%R -> (x < y)%R -> (log2 x < log2 y)%R.
Proof.
  intros Hx Hxy. unfold log2, Rdiv.
  apply Rmult_lt_compat_r.
  - apply Rinv_0_lt_compat, ln_2_pos.
  - now apply ln_increasing.
Qed.

Lemma round_half_even_near x k :
  (IZR k - 1 / 2 < x < IZR k + 1 / 2)%R -> round_half_even x = k.
Proof.
  intros [Hl Hu]. unfold round_half_even.
  destruct (Rle_dec (IZR k) x) as [Hk|Hk].
  - rewrite (Zfloor_eq k) by lra.
    destruct (Rlt_dec (x - IZR k) (1 / 2)); [reflexivity|exfalso; lra].
  - assert (E : Zfloor x = k - 1).
    { apply Zfloor_eq. rewrite minus_IZR. lra. }
    rewrite E, minus_IZR.
    destruct (Rlt_dec (x - (IZR k - 1)) (1 / 2)); [exfalso; lra|].
    destruct (Rlt_dec (1 / 2) (x - (IZR k - 1))); [lia|exfalso; lra].
Qed.

(** Between 1.996 and 2.004 the binary logarithm rounds to 1.00. *)
Lemma round2_log2_near_two x :
  (1.996 <= x <= 2.004)%R -> round2 (log2 x) = 1%R.
Proof.
  intros [Hl Hu].
  set (y := (x / 2)%R).
  assert (Hy : (0.998 <= y <= 1.002)%R) by (unfold y; lra).
  assert (Hx : x = (2 * y)%R) by (unfold y; lra).
  assert (Hln : ln x = (ln 2 + ln y)%R) by (rewrite Hx; apply ln_mult; lra).
  assert (Hup : (ln y <= 0.002)%R).
  { pose proof (ln_upper y). lra. }
  assert (Hlo : (- 0.0021 <= ln y)%R).
  { pose proof (ln_lower y).
    assert (/ y <= 1.0021)%R.
    { rewrite <- (Rmult_1_l (/ y)). apply Rdiv_le_upper; lra. }
    lra. }
  pose proof ln_lt_2 as H2.
  assert (Ht : (- 0.0042 <= ln y / ln 2 <= 0.0042)%R).
  { split; [apply Rdiv_le_lower|apply Rdiv_le_upper]; lra. }
  assert (Hlog : log2 x = (1 + ln y / ln 2)%R).
  { unfold log2. rewrite Hln. field. lra. }
  unfold round2. rewrite (round_half_even_near _ 100); [lra|].
  rewrite Hlog. lra.
Qed.

Lemma bigram_value w1 w2 c T unigram :
  Py.split (w1 ++ " " ++ w2) = [w1; w2] ->
  pmi_value (w1 ++ " " ++ w2) c unigram T 2 =
  log2 ((IZR c + 0.01) * (IZR T + 0.01)
        / ((IZR (Dict.get_default unigram w1 0%Z) + 0.01)
           * (IZR (Dict.get_default unigram w2 0%Z) + 0.01) + 1e-10))%R.
Proof.
  intros Hs. unfold pmi_value. rewrite Hs, pmi_prod_Rprod. simpl.
  do 3 f_equal; lra.
Qed.

(** C3, as the code has it: raising the unigram count of either word of
    a bigram strictly lowers the value before rounding, and never raises
    the rounded value that is returned. *)
Theorem pmi_bigram_decreasing w1 w2 c T u u' :
  Py.split (w1 ++ " " ++ w2) = [w1; w2] ->
  0 < c -> 0 < T ->
  0 <= Dict.get_default u w1 0 -> 0 <= Dict.get_default u w2 0 ->
  Dict.get_default u w1 0 <= Dict.get_default u' w1 0 ->
  Dict.get_default u w2 0 <= Dict.get_default u' w2 0 ->
  Dict.get_default u w1 0 < Dict.get_default u' w1 0
  \/ Dict.get_default u w2 0 < Dict.get_default u' w2 0 ->
  (pmi_value (w1 ++ " " ++ w2) c u' T 2 < pmi_value (w1 ++ " " ++ w2) c u T 2)%R
  /\ (_pmi (w1 ++ " " ++ w2) c u' T 2 <= _pmi (w1 ++ " " ++ w2) c u T 2)%R.
Proof.
  intros Hs Hc HT H1 H2 H1' H2' Hlt.
  assert (Hv : (pmi_value (w1 ++ " " ++ w2) c u' T 2
                < pmi_value (w1 ++ " " ++ w2) c u T 2)%R).
  { rewrite !bigram_value by assumption.
    apply IZR_lt in Hc, HT. apply IZR_le in H1, H2, H1', H2'.
    set (a1 := IZR (Dict.get_default u w1 0)) in *.
    set (a2 := IZR (Dict.get_default u w2 0)) in *.
    set (b1 := IZR (Dict.get_default u' w1 0)) in *.
    set (b2 := IZR (Dict.get_default u' w2 0)) in *.
    assert (Hab : ((a1 + 0.01) * (a2 + 0.01) < (b1 + 0.01) * (b2 + 0.01))%R).
    { destruct Hlt as [Hlt|Hlt]; apply IZR_lt in Hlt; fold a1 b1 a2 b2 in Hlt; nra. }
    assert (Hpa : (0 < (a1 + 0.01) * (a2 + 0.01))%R) by nra.
    assert (Hnum : (0 < (IZR c + 0.01) * (IZR T + 0.01))%R) by nra.
    apply log2_increasing.
    - apply Rdiv_lt_0_compat; lra.
    - apply Rdiv_lt_denominator; lra. }
  split; auto.
  assert (Hlen : Z.of_nat (List.length (Py.split (w1 ++ " " ++ w2))) = 2)
    by now rewrite Hs.
  rewrite !pmi_unfold by (assumption || lia).
  apply round2_mono. lra.
Qed.

Lemma bigram_unigram_nonneg c1 c2 w :
  0 <= c1 -> 0 <= c2 -> 0 <= Dict.get_default (bigram_unigram c1 c2) w 0.
Proof.
  intros H1 H2. unfold Dict.get_default, bigram_unigram. simpl.
  destruct (w =? "folks")%string; [assumption|].
  destruct (w =? "reckon")%string; [assumption|lia].
Qed.

Lemma pmi_folks_reckon c1 :
  1000 <= c1 <= 1001 ->
  _pmi "folks reckon" 1000 (bigram_unigram c1 1000) 2000 2 = 1%R.
Proof.
  intros Hc1.
  rewrite pmi_unfold by (reflexivity || lia).
  change "folks reckon" with ("folks" ++ " " ++ "reckon").
  rewrite bigram_value by reflexivity.
  change (Dict.get_default (bigram_unigram c1 1000) "folks" 0) with c1.
  change (Dict.get_default (bigram_unigram c1 1000) "reckon" 0) with 1000.
  destruct Hc1 as [Hl Hu]. apply IZR_le in Hl, Hu.
  apply round2_log2_near_two.
  split; [apply Rdiv_le_lower|apply Rdiv_le_upper]; nra.
Qed.

(** C3, as stated, fails: with the phrase found 1000 times among 2000
    tokens, raising the unigram count of "folks" from 1000 to 1001 leaves
    the returned value at 1.00. *)
Lemma pmi_bigram_strict_counterexample :
  ~ (_pmi "folks reckon" 1000 (bigram_unigram 1001 1000) 2000 2
     < _pmi "folks reckon" 1000 (bigram_unigram 1000 1000) 2000 2)%R.
Proof. rewrite !pmi_folks_reckon by lia. lra. Qed.

Lemma pmi_bigram_decreasing_witness :
  (pmi_value "folks reckon" 1000 (bigram_unigram 1001 1000) 2000 2
   < pmi_value "folks reckon" 1000 (bigram_unigram 1000 1000) 2000 2)%R
  /\ (_pmi "folks reckon" 1000 (bigram_unigram 1001 1000) 2000 2
      <= _pmi "folks reckon" 1000 (bigram_unigram 1000 1000) 2000 2)%R.
Proof.
  apply (pmi_bigram_decreasing "folks" "reckon" 1000 2000
           (bigram_unigram 1000 1000) (bigram_unigram 1001 1000)).
  - reflexivity.
  - lia.
  - lia.
  - vm_compute; discriminate.
  - vm_compute; discriminate.
  - vm_compute; discriminate.
  - vm_compute; discriminate.
  - left. vm_compute. reflexivity.
Defined.

Lemma pmi_guards_and_formula_witness :
  _pmi "folks reckon" 0 (bigram_unigram 1000 1000) 2000 2 = 0%R
  /\ _pmi "folks reckon" 1000 (bigram_unigram 1000 1000) 2000 2
     = round2 (pmi_formula ["folks"; "reckon"] 1000 (bigram_unigram 1000 1000) 2000)
  /\ (0 < Rprod (map (fun w => IZR (Dict.get_default (bigram_unigram 1000 1000) w 0%Z) + 0.01)
                     ["folks"; "reckon"]) + 1e-10)%R.
Proof.
  pose proof (pmi_guards_and_formula "folks reckon" 0 (bigram_unigram 1000 1000) 2000 2)
    as [H0 _].
  pose proof (pmi_guards_and_formula "folks reckon" 1000 (bigram_unigram 1000 1000) 2000 2)
    as [_ H1].
  split; [apply H0; right; left; lia|].
  destruct H1 as [Hf Hp]; [lia|lia|lia|reflexivity|].
  split; [exact Hf|].
  apply Hp. intros w. apply bigram_unigram_nonneg; lia.
Defined.

(** ** Learning phrases *)

Lemma phrase_state_flat all_tokens : forall st,
  fold_left phrase_doc_step all_tokens st =
  fold_left phrase_occ_step (phrase_occurrences all_tokens) st.
Proof.
  unfold phrase_occurrences.
  induction all_tokens as [|[d toks] l IH]; intros st; simpl; auto.
  rewrite fold_left_app, <- IH. f_equal.
  rewrite !fold_left_app, !fold_left_map. reflexivity.
Qed.

Lemma phrase_count_fold os : forall st,
  ps_phrase_count (fold_left phrase_occ_step os st) =
  fold_left (fun c o => counter_incr (occ_phrase o) c) os (ps_phrase_count st).
Proof.
  induction os as [|[n [[ph d] sf]] os IH]; intros st; simpl; [reflexivity|].
  now rewrite IH.
Qed.

Lemma phrase_docs_fold os : forall st,
  ps_phrase_docs (fold_left phrase_occ_step os st) =
  fold_left (fun d o => dict_set_add (occ_phrase o) (occ_doc o) d) os
            (ps_phrase_docs st).
Proof.
  induction os as [|[n [[ph d] sf]] os IH]; intros st; simpl; [reflexivity|].
  now rewrite IH.
Qed.

(** The keys of a dictionary filled by per-key updates are the set of the
    keys updated, in order of first update. *)
Lemma keys_fold_set {X V} (key : X -> string) (g : X -> option V -> V) xs :
  forall d,
  Dict.keys (fold_left (upd_step key g) xs d) =
  fold_left (fun s x => set_add (key x) s) xs (Dict.keys d).
Proof.
  induction xs as [|x xs IH]; intros d; simpl; auto.
  rewrite IH. f_equal. unfold upd_step. rewrite keys_update.
  unfold set_add.
  destruct (Dict.get d (key x)) eqn:E.
  - assert (In (key x) (Dict.keys d)).
    { apply get_In in E. change (key x) with (fst (key x, v)). now apply in_map. }
    apply mem_In in H. now rewrite H.
  - apply get_None_keys in E.
    destruct (Py.mem (key x) (Dict.keys d)) eqn:M; auto.
    apply mem_In in M. contradiction.
Qed.

Lemma phrase_count_keys all_tokens :
  Dict.keys (ps_phrase_count (fold_left phrase_doc_step all_tokens phrase_init))
  = candidate_phrases all_tokens.
Proof.
  rewrite phrase_state_flat, phrase_count_fold. simpl.
  change (fold_left (fun c o => counter_incr (occ_phrase o) c)
                    (phrase_occurrences all_tokens) [])
    with (fold_left (upd_step occ_phrase (fun _ => incr_value))
                    (phrase_occurrences all_tokens) []).
  rewrite keys_fold_set. unfold candidate_phrases, set_of.
  now rewrite fold_left_map.
Qed.

Lemma candidate_phrases_NoDup all_tokens : NoDup (candidate_phrases all_tokens).
Proof.
  unfold candidate_phrases, set_of.
  apply fold_set_add_spec. constructor.
Qed.

Lemma In_candidate_phrases all_tokens phrase :
  In phrase (candidate_phrases all_tokens) <->
  In phrase (map occ_phrase (phrase_occurrences all_tokens)).
Proof.
  unfold candidate_phrases, set_of.
  destruct (fold_set_add_spec (map occ_phrase (phrase_occurrences all_tokens)) []
              (NoDup_nil _)) as [_ H].
  rewrite H. simpl. tauto.
Qed.

(** The counts held by the dictionaries are the reference counts. *)
Lemma phrase_count_value all_tokens phrase count :
  In (phrase, count)
     (ps_phrase_count (fold_left phrase_doc_step all_tokens phrase_init)) ->
  count = total_count all_tokens phrase.
Proof.
  intros H. apply In_get in H.
  2:{ rewrite phrase_count_keys. apply candidate_phrases_NoDup. }
  rewrite phrase_state_flat, phrase_count_fold in H. simpl in H.
  rewrite (get_counter_fold occ_phrase) in H. unfold total_count.
  destruct (under occ_phrase phrase (phrase_occurrences all_tokens)); congruence.
Qed.

Lemma phrase_docs_value all_tokens phrase :
  Z.of_nat (List.length (Dict.get_default
    (ps_phrase_docs (fold_left phrase_doc_step all_tokens phrase_init)) phrase []))
  = document_frequency all_tokens phrase.
Proof.
  rewrite phrase_state_flat, phrase_docs_fold. simpl.
  rewrite (get_set_fold occ_phrase occ_doc), length_set_of. reflexivity.
Qed.

Lemma map_flat_map_filter {A B} (f : B -> string) (h : A -> list B)
  (key : A -> string) (q : string -> bool) (l : list A) :
  (forall e, In e l -> map f (h e) = if q (key e) then [key e] else []) ->
  map f (flat_map h l) = filter q (map key l).
Proof.
  induction l as [|e l IH]; intros H; simpl; auto.
  rewrite map_app, H by now left.
  rewrite IH by (intros; apply H; now right).
  now destruct (q (key e)).
Qed.

(** The phrases that pass the filter are the candidates that qualify on
    the reference counts, in order of first occurrence. *)
Lemma phrase_entries_t set_order all_tokens total_docs :
  map lp_t (phrase_entries set_order all_tokens total_docs) =
  filter (qualifies all_tokens total_docs) (candidate_phrases all_tokens).
Proof.
  unfold phrase_entries.
  destruct (_unigram_counts_and_total all_tokens) as [unigram total_tokens].
  rewrite <- phrase_count_keys. unfold Dict.keys.
  apply map_flat_map_filter. intros [phrase count] Hin.
  apply phrase_count_value in Hin. subst count.
  rewrite phrase_docs_value. unfold qualifies. cbn [fst].
  destruct (phrase_has_distinctive_word phrase); cbn [negb andb];
  destruct (total_docs =? 1);
  repeat match goal with
         | |- context [?a <? ?b] => destruct (Z.ltb_spec a b)
         | |- context [?a <=? ?b] => destruct (Z.leb_spec a b)
         end; cbn [orb andb map]; try reflexivity; lia.
Qed.

Lemma phrase_entries_counts set_order all_tokens total_docs :
  Forall (fun x => lp_c x = total_count all_tokens (lp_t x)
                   /\ lp_df x = document_frequency all_tokens (lp_t x))
         (phrase_entries set_order all_tokens total_docs).
Proof.
  unfold phrase_entries.
  destruct (_unigram_counts_and_total all_tokens) as [unigram total_tokens].
  apply Forall_forall. intros x Hx. apply in_flat_map in Hx.
  destruct Hx as [[phrase count] [Hin Hx]].
  destruct (_ || _); [contradiction|].
  destruct (negb _); [contradiction|].
  destruct Hx as [<-|[]]. cbn [phrase_item lp_c lp_df lp_t].
  split; [now apply phrase_count_value|apply phrase_docs_value].
Qed.


Lemma In_extract_learning_phrases set_order all_tokens total_docs x :
  In x (extract_learning_phrases set_order all_tokens total_docs) ->
  In x (phrase_entries set_order all_tokens total_docs).
Proof.
  unfold extract_learning_phrases. intros H.
  apply In_firstn in H. now apply stable_sort_In in H.
Qed.

(** A phrase that clears the count threshold occurs in the corpus. *)
Lemma qualifies_candidate all_tokens total_docs phrase :
  qualifies all_tokens total_docs phrase = true ->
  In phrase (candidate_phrases all_tokens).
Proof.
  unfold qualifies, total_count. intros H.
  apply andb_true_iff in H. destruct H as [_ H].
  assert (Hn : under occ_phrase phrase (phrase_occurrences all_tokens) <> []).
  { intros E. rewrite E in H. simpl in H. now destruct (total_docs =? 1). }
  apply In_candidate_phrases.
  destruct (under occ_phrase phrase (phrase_occurrences all_tokens)) as [|o l] eqn:E;
    [congruence|].
  assert (Ho : In o (under occ_phrase phrase (phrase_occurrences all_tokens)))
    by (rewrite E; now left).
  apply filter_In in Ho. destruct Ho as [Ho Hk].
  apply String.eqb_eq in Hk. subst phrase. now apply in_map.
Qed.

(** The filter on the [total_docs] argument: every phrase in the result
    passes it, and when at most 1000 phrases pass every one of them is in
    the result; the counts the result reports are the reference counts. *)
Lemma phrase_filter_total_docs set_order all_tokens total_docs phrase :
  (In phrase (map lp_t (extract_learning_phrases set_order all_tokens total_docs)) ->
   qualifies all_tokens total_docs phrase = true)
  /\ ((List.length (filter (qualifies all_tokens total_docs)
                           (candidate_phrases all_tokens)) <= 1000)%nat ->
      qualifies all_tokens total_docs phrase = true ->
      In phrase (map lp_t (extract_learning_phrases set_order all_tokens total_docs)))
  /\ Forall (fun x => lp_c x = total_count all_tokens (lp_t x)
                      /\ lp_df x = document_frequency all_tokens (lp_t x))
            (extract_learning_phrases set_order all_tokens total_docs).
Proof.
  split; [|split].
  - intros H. apply in_map_iff in H. destruct H as [x [<- Hx]].
    apply In_extract_learning_phrases in Hx.
    apply (in_map lp_t) in Hx. rewrite phrase_entries_t in Hx.
    now apply filter_In in Hx.
  - intros Hlen Hq. unfold extract_learning_phrases.
    rewrite firstn_all2.
    + assert (H : In phrase (map lp_t (phrase_entries set_order all_tokens total_docs))).
      { rewrite phrase_entries_t. apply filter_In. split; auto.
        eapply qualifies_candidate; eauto. }
      apply in_map_iff in H. destruct H as [x [<- Hx]].
      apply in_map. now apply stable_sort_In.
    + rewrite stable_sort_length.
      rewrite <- (length_map lp_t), phrase_entries_t. exact Hlen.
  - apply Forall_forall. intros x Hx.
    apply In_extract_learning_phrases in Hx.
    revert x Hx. apply Forall_forall. apply phrase_entries_counts.
Qed.














(** In two documents a phrase found 5 times, in both, is in the result. *)
Example two_documents_five_times :
  total_count two_doc_corpus_5 "folks reckon" = 5
  /\ document_frequency two_doc_corpus_5 "folks reckon" = 2
  /\ In "folks reckon"
        (map lp_t (extract_learning_phrases (fun s => s) two_doc_corpus_5 2)).
Proof.
  split; [vm_compute; reflexivity|]. split; [vm_compute; reflexivity|].
  apply (proj1 (proj2 (phrase_filter_total_docs
                         (fun s => s) two_doc_corpus_5 2 "folks reckon"))).
  - apply Nat.leb_le. vm_compute. reflexivity.
  - vm_compute. reflexivity.
Qed.

(** Found 4 times, it is not. *)
Example two_documents_four_times :
  total_count two_doc_corpus_4 "folks reckon" = 4
  /\ document_frequency two_doc_corpus_4 "folks reckon" = 2
  /\ ~ In "folks reckon"
          (map lp_t (extract_learning_phrases (fun s => s) two_doc_corpus_4 2)).
Proof.
  split; [vm_compute; reflexivity|]. split; [vm_compute; reflexivity|].
  intros H.
  apply (proj1 (phrase_filter_total_docs
                  (fun s => s) two_doc_corpus_4 2 "folks reckon")) in H.
  vm_compute in H. discriminate H.
Qed.

(** ** Determinism of the collocation miner *)

Lemma map_flat_map {A B C} (f : B -> C) (h : A -> list B) (l : list A) :
  map f (flat_map h l) = flat_map (fun x => map f (h x)) l.
Proof.
  induction l as [|x l IH]; simpl; auto.
  now rewrite map_app, IH.
Qed.

Lemma phrase_entries_core o1 o2 all_tokens total_docs :
  map phrase_core (phrase_entries o1 all_tokens total_docs) =
  map phrase_core (phrase_entries o2 all_tokens total_docs).
Proof.
  unfold phrase_entries.
  destruct (_unigram_counts_and_total all_tokens) as [unigram total_tokens].
  rewrite !map_flat_map. apply flat_map_ext. intros [phrase count].
  destruct (_ || _); auto. destruct (negb _); auto.
Qed.

Lemma extract_learning_phrases_core set_order all_tokens total_docs :
  map phrase_core (extract_learning_phrases set_order all_tokens total_docs) =
  firstn 1000
    (stable_sort (fun y x => lex_Rltb (core_key x) (core_key y))
       (map phrase_core (phrase_entries set_order all_tokens total_docs))).
Proof.
  unfold extract_learning_phrases. rewrite <- firstn_map. f_equal.
  apply stable_sort_map. reflexivity.
Qed.

Lemma surfaces_of_ext o1 o2 d k :
  (forall s, o1 s = o2 s) -> surfaces_of o1 d k = surfaces_of o2 d k.
Proof. intros H. unfold surfaces_of. now rewrite H. Qed.

(** C9: the phrases, their counts, document frequencies, scores and PMI
    values, and their order, do not depend on the order in which the sets
    of surface forms are iterated; with the same iteration order two runs
    give the same list. *)
Theorem extract_learning_phrases_deterministic o1 o2 all_tokens total_docs :
  map phrase_core (extract_learning_phrases o1 all_tokens total_docs)
  = map phrase_core (extract_learning_phrases o2 all_tokens total_docs)
  /\ ((forall s, o1 s = o2 s) ->
      extract_learning_phrases o1 all_tokens total_docs
      = extract_learning_phrases o2 all_tokens total_docs).
Proof.
  split.
  - rewrite !extract_learning_phrases_core.
    now rewrite (phrase_entries_core o1 o2).
  - intros H. unfold extract_learning_phrases. do 2 f_equal.
    unfold phrase_entries.
    destruct (_unigram_counts_and_total all_tokens) as [unigram total_tokens].
    apply flat_map_ext. intros [phrase count].
    destruct (_ || _); auto. destruct (negb _); auto.
    unfold phrase_item. now rewrite (surfaces_of_ext o1 o2).
Qed.

Lemma extract_learning_phrases_deterministic_witness :
  extract_learning_phrases (fun s => s) single_doc_corpus 1
  = extract_learning_phrases (fun s => rev (rev s)) single_doc_corpus 1.
Proof.
  apply (proj2 (extract_learning_phrases_deterministic
                  (fun s => s) (fun s => rev (rev s)) single_doc_corpus 1)).
  intros s. symmetry. apply rev_involutive.
Defined.

(** * Further properties *)

(** ** Words of a string *)

Lemma spaceless_app a b :
  spaceless (a ++ b) = spaceless a && spaceless b.
Proof.
  induction a as [|c a IH]; simpl; auto.
  rewrite IH. now rewrite andb_assoc.
Qed.

Lemma append_nonempty a c : a ++ String c "" <> "".
Proof. destruct a; discriminate. Qed.

Lemma split_from_words s : forall w,
  spaceless w = true -> Forall is_word (Py.split_from w s).
Proof.
  induction s as [|c r IH]; intros w Hw; simpl.
  - destruct (String.eqb_spec w ""); constructor; [split|]; auto.
  - destruct (Py.isspace c) eqn:Hc.
    + destruct (String.eqb_spec w "").
      * now apply IH.
      * constructor; [split; auto|]. now apply IH.
    + apply IH. rewrite spaceless_app. simpl. now rewrite Hw, Hc.
Qed.

(** Every element of [s.split()] is a non-empty run without whitespace. *)
Lemma split_is_word s : Forall is_word (Py.split s).
Proof. now apply split_from_words. Qed.

Lemma lstrip_word w : is_word w -> Py.lstrip w = w.
Proof.
  intros [Hn Hs]. destruct w as [|c r]; [congruence|].
  simpl in *. apply andb_true_iff in Hs. destruct Hs as [Hc _].
  apply negb_true_iff in Hc. now rewrite Hc.
Qed.

Lemma rstrip_spaceless w : spaceless w = true -> Py.rstrip w = w.
Proof.
  induction w as [|c r IH]; simpl; auto.
  intros H. apply andb_true_iff in H. destruct H as [Hc Hr].
  rewrite (IH Hr). apply negb_true_iff in Hc. rewrite Hc.
  now destruct r.
Qed.

Lemma strip_word w : is_word w -> Py.strip w = w.
Proof.
  intros H. unfold Py.strip. rewrite (lstrip_word w H).
  apply rstrip_spaceless, H.
Qed.

Lemma split_from_lstrip s : Py.split_from "" (Py.lstrip s) = Py.split_from "" s.
Proof.
  induction s as [|c r IH]; simpl; auto.
  destruct (Py.isspace c) eqn:Hc; simpl; auto.
  now rewrite Hc.
Qed.

Lemma split_from_cons w c r :
  Py.split_from w (String c r) =
  if Py.isspace c then
    (if String.eqb w "" then Py.split_from "" r else w :: Py.split_from "" r)
  else Py.split_from (w ++ String c EmptyString) r.
Proof. reflexivity. Qed.

Lemma split_from_rstrip s : forall w,
  Py.split_from w (Py.rstrip s) = Py.split_from w s.
Proof.
  induction s as [|c r IH]; intros w; [reflexivity|].
  cbn [Py.rstrip].
  destruct (Py.rstrip r) as [|c' r'] eqn:E.
  - rewrite (split_from_cons w c r).
    destruct (Py.isspace c) eqn:Hc.
    + rewrite <- (IH ""). reflexivity.
    + rewrite split_from_cons, Hc. apply IH.
  - rewrite (split_from_cons w c r), (split_from_cons w c (String c' r')).
    destruct (Py.isspace c); now rewrite !IH.
Qed.

(** Stripping a string does not change its words. *)
Lemma split_strip s : Py.split (Py.strip s) = Py.split s.
Proof.
  unfold Py.split, Py.strip. now rewrite split_from_rstrip, split_from_lstrip.
Qed.

Lemma split_blank s : Py.strip s = "" -> Py.split s = [].
Proof. intros H. rewrite <- split_strip, H. reflexivity. Qed.

Lemma existsb_words (P : string -> bool) (l : list string) :
  Forall is_word l ->
  existsb P (map (fun w => Py.lower (Py.strip w))
                 (filter (fun w => negb (Py.falsy (Py.strip w))) l))
  = existsb (fun w => P (Py.lower w)) l.
Proof.
  induction 1 as [|w l Hw Hl IH]; [reflexivity|].
  cbn [filter]. rewrite (strip_word w Hw).
  assert (F : Py.falsy w = false) by (apply String.eqb_neq, Hw).
  rewrite F. cbn [negb map existsb]. now rewrite IH, (strip_word w Hw).
Qed.

(** Tier 0 is exactly what [is_common_lemma] accepts. *)
Theorem rarity_tier_zero_iff_common lemma :
  rarity_tier lemma = 0 <-> is_common_lemma lemma = true.
Proof.
  unfold rarity_tier, is_common_lemma.
  destruct (Py.falsy lemma); [tauto|].
  destruct (Py.mem _ COMMON_LEMMAS); [tauto|].
  destruct (Py.mem _ MODERATE_LEMMAS); split; discriminate.
Qed.

(** A phrase is distinctive exactly when one of its whitespace-separated
    words, lowercased, is outside the common set; the blank tests and the
    per-word [strip] change nothing. *)
Theorem phrase_has_distinctive_word_words phrase :
  phrase_has_distinctive_word phrase =
  existsb (fun w => negb (Py.mem (Py.lower w) COMMON_LEMMAS)) (Py.split phrase).
Proof.
  unfold phrase_has_distinctive_word.
  destruct (Py.falsy phrase || Py.falsy (Py.strip phrase)) eqn:G.
  - assert (E : Py.split phrase = []).
    { apply orb_true_iff in G. destruct G as [G|G]; apply String.eqb_eq in G.
      - now subst.
      - now apply split_blank. }
    now rewrite E.
  - apply (existsb_words (fun w => negb (Py.mem w COMMON_LEMMAS))).
    apply split_is_word.
Qed.

Lemma head_lemma_split pattern :
  head_lemma_is_common pattern =
  match Py.split pattern with
  | [] => true
  | head :: _ => Py.mem (Py.lower head) COMMON_LEMMAS
  end.
Proof.
  unfold head_lemma_is_common.
  destruct (Py.falsy pattern || Py.falsy (Py.strip pattern)) eqn:G.
  - assert (E : Py.split pattern = []).
    { apply orb_true_iff in G. destruct G as [G|G]; apply String.eqb_eq in G.
      - now subst.
      - now apply split_blank. }
    now rewrite E.
  - now rewrite split_strip.
Qed.

(** A pattern's head is common exactly when the pattern has no word or its
    first word, lowercased, is in the common set. *)
Theorem head_lemma_is_common_first_word pattern :
  head_lemma_is_common pattern =
  match Py.split pattern with
  | [] => true
  | head :: _ => Py.mem (Py.lower head) COMMON_LEMMAS
  end.
Proof. exact (head_lemma_split pattern). Qed.

(** ** N-grams *)

(** The test [stop_count / n > 0.6] fails exactly when
    [5 * stop_count <= 3 * n]. *)
Lemma stop_fraction (a n : nat) :
  (0 < n)%nat ->
  Qle_bool (inject_Z (Z.of_nat a) / inject_Z (Z.of_nat n)) 0.6 = true
  <-> (5 * a <= 3 * n)%nat.
Proof.
  intros Hn. rewrite Qle_bool_iff.
  destruct n as [|m]; [lia|].
  unfold Qle, Qdiv, Qmult, Qinv, inject_Z.
  cbn [Qnum Qden]. rewrite Nat2Z.inj_succ.
  destruct (Z.succ (Z.of_nat m)) as [|p|p] eqn:E; try lia.
  cbn [Qnum Qden]. rewrite Pos.mul_1_l, <- E. lia.
Qed.

Lemma window_length tokens i n :
  (i + n <= List.length tokens)%nat -> List.length (window tokens i n) = n.
Proof.
  intros H. unfold window. rewrite length_firstn, length_skipn. lia.
Qed.

Lemma In_generate_ngrams tokens n doc_id phrase doc surface :
  (0 < n)%nat ->
  In (phrase, doc, surface) (generate_ngrams tokens n doc_id) <->
  exists i,
    (i + n <= List.length tokens)%nat
    /\ (5 * stop_count (window tokens i n) <= 3 * n)%nat
    /\ existsb (fun t => Py.mem (pos t) CONTENT_POS) (window tokens i n) = true
    /\ phrase = Py.join " " (map norm (window tokens i n))
    /\ doc = doc_id
    /\ surface = Py.join " " (map text (window tokens i n)).
Proof.
  intros Hn. unfold generate_ngrams. rewrite in_flat_map.
  fold (window tokens).
  split.
  - intros [i [Hi H]]. apply in_seq in Hi. exists i.
    change (firstn n (skipn i tokens)) with (window tokens i n) in H.
    change (List.length (filter is_stop (window tokens i n)))
      with (stop_count (window tokens i n)) in H.
    destruct (Qle_bool _ 0.6) eqn:Hq; cbn [negb] in H; [|contradiction].
    destruct (existsb _ (window tokens i n)) eqn:Hc; cbn [negb] in H;
      [|contradiction].
    destruct H as [H|[]]. injection H as <- <- <-.
    apply stop_fraction in Hq; auto.
    repeat split; auto. lia.
  - intros [i (Hi & Hs & Hc & -> & -> & ->)]. exists i. split.
    + apply in_seq. lia.
    + change (firstn n (skipn i tokens)) with (window tokens i n).
      change (List.length (filter is_stop (window tokens i n)))
        with (stop_count (window tokens i n)).
      apply stop_fraction in Hs; auto. rewrite Hs, Hc. now left.
Qed.

(** What [generate_ngrams] yields: one item for every window of exactly [n]
    consecutive tokens of which at most three fifths are stop-words and at
    least one has a content part of speech; the item carries the joined
    normalized forms, the document id given, and the joined texts. *)
Theorem generate_ngrams_spec tokens n doc_id phrase doc surface :
  (0 < n)%nat ->
  In (phrase, doc, surface) (generate_ngrams tokens n doc_id) <->
  exists i,
    (i + n <= List.length tokens)%nat
    /\ (5 * stop_count (window tokens i n) <= 3 * n)%nat
    /\ existsb (fun t => Py.mem (pos t) CONTENT_POS) (window tokens i n) = true
    /\ phrase = Py.join " " (map norm (window tokens i n))
    /\ doc = doc_id
    /\ surface = Py.join " " (map text (window tokens i n)).
Proof. exact (In_generate_ngrams tokens n doc_id phrase doc surface). Qed.

Lemma generate_ngrams_spec_witness :
  In ("folks reckon", "doc-a", "folks reckon")
     (generate_ngrams [word "folks" "NOUN"; word "reckon" "VERB"] 2 "doc-a").
Proof.
  apply (proj2 (generate_ngrams_spec
                  [word "folks" "NOUN"; word "reckon" "VERB"] 2 "doc-a"
                  "folks reckon" "doc-a" "folks reckon" Nat.lt_0_2)).
  exists 0%nat. repeat split; try (vm_compute; reflexivity); vm_compute; lia.
Defined.

Lemma flat_map_length_le {A B} (f : A -> list B) (l : list A) :
  (forall x, List.length (f x) <= 1)%nat ->
  (List.length (flat_map f l) <= List.length l)%nat.
Proof.
  intros H. induction l as [|x l IH]; simpl; auto.
  rewrite length_app. specialize (H x). lia.
Qed.

Lemma generate_ngrams_bound tokens n doc_id :
  (List.length (generate_ngrams tokens n doc_id)
   <= List.length tokens + 1 - n)%nat.
Proof.
  unfold generate_ngrams.
  eapply Nat.le_trans; [apply flat_map_length_le|].
  - intros i. destruct (negb _); [simpl; lia|].
    destruct (negb _); simpl; lia.
  - now rewrite length_seq.
Qed.

(** For [n >= 1], a document of [len] tokens yields at most [len - n + 1]
    n-grams, and none at all when it has fewer than [n] tokens. *)
Theorem generate_ngrams_length tokens n doc_id :
  (0 < n)%nat ->
  (List.length (generate_ngrams tokens n doc_id)
   <= List.length tokens + 1 - n)%nat
  /\ ((List.length tokens < n)%nat -> generate_ngrams tokens n doc_id = []).
Proof.
  intros _. pose proof (generate_ngrams_bound tokens n doc_id) as H.
  split; [exact H|]. intros Hlt.
  destruct (generate_ngrams tokens n doc_id); [reflexivity|].
  simpl in H. lia.
Qed.

Lemma generate_ngrams_length_witness :
  (List.length (generate_ngrams [word "folks" "NOUN"; word "reckon" "VERB";
                                 word "so" "ADV"] 2 "doc-a") <= 2)%nat
  /\ generate_ngrams [word "folks" "NOUN"] 2 "doc-a" = [].
Proof.
  split.
  - refine (proj1 (generate_ngrams_length
                     [word "folks" "NOUN"; word "reckon" "VERB"; word "so" "ADV"]
                     2 "doc-a" _)).
    lia.
  - refine (proj2 (generate_ngrams_length [word "folks" "NOUN"] 2 "doc-a" _) _).
    + lia.
    + simpl. lia.
Defined.

(** A window made of stop-words only, or without any content word, is
    never an n-gram: each n-gram has a token with a content part of speech
    and a token that is not a stop-word. *)
Theorem generate_ngrams_content tokens n doc_id phrase doc surface :
  (0 < n)%nat ->
  In (phrase, doc, surface) (generate_ngrams tokens n doc_id) ->
  exists i,
    (i + n <= List.length tokens)%nat
    /\ phrase = Py.join " " (map norm (window tokens i n))
    /\ (exists t, In t (window tokens i n) /\ Py.mem (pos t) CONTENT_POS = true)
    /\ (exists t, In t (window tokens i n) /\ is_stop t = false).
Proof.
  intros Hn H. apply In_generate_ngrams in H; auto.
  destruct H as [i (Hi & Hs & Hc & Hp & _ & _)].
  exists i. repeat split; auto.
  - apply existsb_exists in Hc. exact Hc.
  - pose proof (window_length tokens i n Hi) as Hl.
    unfold stop_count in Hs.
    destruct (forallb is_stop (window tokens i n)) eqn:Hall.
    + exfalso.
      assert (E : filter is_stop (window tokens i n) = window tokens i n).
      { apply forallb_filter_id. exact Hall. }
      rewrite E, Hl in Hs. lia.
    + assert (Hex : existsb (fun t => negb (is_stop t)) (window tokens i n) = true).
      { clear - Hall. induction (window tokens i n) as [|t l IH]; simpl in *;
          [discriminate|].
        destruct (is_stop t); simpl in *; auto. }
      apply existsb_exists in Hex. destruct Hex as [t [Ht Hst]].
      exists t. split; auto. now apply negb_true_iff.
Qed.

Lemma generate_ngrams_content_witness :
  exists i,
    (i + 2 <= 2)%nat
    /\ "folks reckon"
       = Py.join " " (map norm (window [word "folks" "NOUN"; word "reckon" "VERB"] i 2))
    /\ (exists t, In t (window [word "folks" "NOUN"; word "reckon" "VERB"] i 2)
                  /\ Py.mem (pos t) CONTENT_POS = true)
    /\ (exists t, In t (window [word "folks" "NOUN"; word "reckon" "VERB"] i 2)
                  /\ is_stop t = false).
Proof.
  apply (generate_ngrams_content
           [word "folks" "NOUN"; word "reckon" "VERB"] 2 "doc-a"
           "folks reckon" "doc-a" "folks reckon" Nat.lt_0_2).
  vm_compute. left. reflexivity.
Defined.

(** ** More on the vocabulary *)

Lemma NoDup_firstn {A} (l : list A) k : NoDup l -> NoDup (firstn k l).
Proof.
  intros H. rewrite <- (firstn_skipn k l) in H.
  now apply NoDup_app_remove_r in H.
Qed.

Lemma vocab_surfaces_fold tokens : forall st,
  vs_surfaces_by_lemma (fold_left vocab_step tokens st) =
  fold_left (fun d t => dict_set_add (lemma t) (text t) d)
            (filter counted tokens) (vs_surfaces_by_lemma st).
Proof.
  induction tokens as [|t ts IH]; intros st; simpl; auto.
  rewrite IH. unfold vocab_step, counted.
  destruct (Py.mem (pos t) CONTENT_POS && negb (is_stop t)); simpl; auto.
  destruct (is_common_lemma (lemma t)); simpl; auto.
Qed.

(** The vocabulary has one entry per lemma, and an entry counts the tokens
    of its lemma that have a content part of speech, are not stop-words and
    are not common; that count is at least 1. *)
Theorem extract_vocabulary_counts set_order tokens :
  NoDup (map v_t (extract_vocabulary set_order tokens))
  /\ Forall
       (fun x =>
          v_c x = Z.of_nat (List.length (under lemma (v_t x) (filter counted tokens)))
          /\ 1 <= v_c x)
       (extract_vocabulary set_order tokens).
Proof.
  split.
  - rewrite extract_vocabulary_eq, <- firstn_map. apply NoDup_firstn.
    eapply Permutation_NoDup.
    + apply Permutation_map. symmetry. apply stable_sort_perm.
    + rewrite vocab_entries_t. apply vocab_keys_NoDup.
  - apply Forall_forall. intros x Hx.
    apply In_extract_vocabulary, vocab_entry_inv in Hx.
    destruct Hx as (Hk & _ & Hc & _). split; auto.
    rewrite Hc. apply in_map_iff in Hk. destruct Hk as [t [Ht Hin]].
    assert (Hu : In t (under lemma (v_t x) (filter counted tokens))).
    { apply filter_In. split; auto. now apply String.eqb_eq. }
    destruct (under lemma (v_t x) (filter counted tokens)); [contradiction|].
    simpl List.length. lia.
Qed.

(** The vocabulary is empty exactly when no token is counted: in
    particular for an empty token list, and for tokens that are all
    stop-words, function words or common lemmas. *)
Theorem extract_vocabulary_empty_iff set_order tokens :
  extract_vocabulary set_order tokens = [] <-> filter counted tokens = [].
Proof.
  rewrite extract_vocabulary_eq. split.
  - intros H.
    destruct (filter counted tokens) as [|t l] eqn:E; auto. exfalso.
    assert (Hk : In (lemma t) (map lemma (filter counted tokens)))
      by (rewrite E; now left).
    apply vocab_keys in Hk. rewrite <- (vocab_entries_t set_order) in Hk.
    apply in_map_iff in Hk. destruct Hk as [x [_ Hx]].
    apply (stable_sort_In (fun y x => lex_ltb (vocab_key y) (vocab_key x))) in Hx.
    destruct (stable_sort _ (vocab_entries set_order tokens)) as [|y s];
      [contradiction|discriminate].
  - intros E. unfold vocab_entries. rewrite vocab_counter_fold, E. reflexivity.
Qed.

Lemma surfaces_field_cap (l : list string) k :
  (List.length l <= k)%nat ->
  match surfaces_field l with
  | Some s => s <> [] /\ (List.length s <= k)%nat
  | None => True
  end.
Proof. destruct l; simpl; auto. intros H. split; [discriminate|exact H]. Qed.

Lemma surfaces_of_cap set_order d k :
  (List.length (surfaces_of set_order d k) <= 30)%nat.
Proof. unfold surfaces_of. rewrite length_firstn. lia. Qed.

(** When Python iterates a set it yields each element once: under that
    assumption every vocabulary entry carries surface forms, at most 30 of
    them, and each is the text of a counted token of the entry's lemma. *)
Theorem extract_vocabulary_surfaces set_order tokens :
  (forall s, Permutation (set_order s) s) ->
  Forall
    (fun x =>
       exists l,
         v_surfaces x = Some l
         /\ l <> []
         /\ (List.length l <= 30)%nat
         /\ Forall (fun s => exists t, In t tokens /\ counted t = true
                                      /\ lemma t = v_t x /\ text t = s) l)
    (extract_vocabulary set_order tokens).
Proof.
  intros Hperm. apply Forall_forall. intros x Hx.
  apply In_extract_vocabulary in Hx.
  pose proof (vocab_entry_inv _ _ _ Hx) as (Hk & _ & _ & _).
  unfold vocab_entries in Hx. apply in_map_iff in Hx.
  destruct Hx as [[l c] [<- Hin]].
  cbn [vocab_item v_surfaces v_t] in *.
  set (surf := surfaces_of set_order _ l).
  assert (Hset : Dict.get_default
            (vs_surfaces_by_lemma (fold_left vocab_step tokens vocab_init)) l []
          = set_of (map text (under lemma l (filter counted tokens)))).
  { rewrite vocab_surfaces_fold. simpl.
    apply (get_set_fold lemma text). }
  assert (Hsub : forall s, In s surf ->
            exists t, In t tokens /\ counted t = true /\ lemma t = l /\ text t = s).
  { intros s Hs. unfold surf, surfaces_of in Hs. apply In_firstn in Hs.
    apply (Permutation_in _ (Hperm _)) in Hs. rewrite Hset in Hs.
    destruct (fold_set_add_spec (map text (under lemma l (filter counted tokens)))
                [] (NoDup_nil _)) as [_ Hin'].
    apply Hin' in Hs. destruct Hs as [[]|Hs].
    apply in_map_iff in Hs. destruct Hs as [t [Ht Hu]].
    apply filter_In in Hu. destruct Hu as [Hu Hl].
    apply filter_In in Hu. destruct Hu as [Hu Hc].
    apply String.eqb_eq in Hl. now exists t. }
  assert (Hne : surf <> []).
  { apply in_map_iff in Hk. destruct Hk as [t [Hl Ht]].
    assert (Hin0 : In (text t) (set_of (map text (under lemma l (filter counted tokens))))).
    { destruct (fold_set_add_spec (map text (under lemma l (filter counted tokens)))
                  [] (NoDup_nil _)) as [_ Hin']. apply Hin'. right.
      apply in_map. apply filter_In. split; auto. now apply String.eqb_eq. }
    rewrite <- Hset in Hin0.
    apply (Permutation_in _ (Permutation_sym (Hperm _))) in Hin0.
    unfold surf, surfaces_of.
    destruct (set_order _) as [|a r]; [contradiction|]. discriminate. }
  exists surf. repeat split; auto.
  - unfold surfaces_field. destruct surf; [congruence|reflexivity].
  - apply surfaces_of_cap.
  - apply Forall_forall. exact Hsub.
Qed.

Lemma extract_vocabulary_surfaces_witness :
  Forall
    (fun x =>
       exists l,
         v_surfaces x = Some l
         /\ l <> []
         /\ (List.length l <= 30)%nat
         /\ Forall (fun s => exists t, In t rate_tokens /\ counted t = true
                                      /\ lemma t = v_t x /\ text t = s) l)
    (extract_vocabulary (fun s => s) rate_tokens).
Proof.
  apply (extract_vocabulary_surfaces (fun s => s) rate_tokens).
  intros s. apply Permutation_refl.
Defined.

(** Whatever the iteration order, the surface forms of an entry of any of
    the three ranked lists, when present, are between 1 and 30. *)
Theorem surfaces_capped set_order tokens all_tokens total_docs all_patterns :
  Forall (fun x => match v_surfaces x with
                   | Some s => s <> [] /\ (List.length s <= 30)%nat
                   | None => True
                   end)
         (extract_vocabulary set_order tokens)
  /\ Forall (fun x => match lp_surfaces x with
                      | Some s => s <> [] /\ (List.length s <= 30)%nat
                      | None => True
                      end)
            (extract_learning_phrases set_order all_tokens total_docs)
  /\ Forall (fun x => match pp_surfaces x with
                      | Some s => s <> [] /\ (List.length s <= 30)%nat
                      | None => True
                      end)
            (aggregate_patterns set_order all_patterns).
Proof.
  split; [|split]; apply Forall_forall; intros x Hx.
  - apply In_extract_vocabulary in Hx. unfold vocab_entries in Hx.
    apply in_map_iff in Hx. destruct Hx as [[l c] [<- _]].
    apply surfaces_field_cap, surfaces_of_cap.
  - apply In_extract_learning_phrases in Hx. unfold phrase_entries in Hx.
    destruct (_unigram_counts_and_total all_tokens) as [u T].
    apply in_flat_map in Hx. destruct Hx as [[ph c] [_ Hx]].
    destruct (_ || _); [contradiction|].
    destruct (negb _); [contradiction|].
    destruct Hx as [<-|[]].
    apply surfaces_field_cap, surfaces_of_cap.
  - apply In_aggregate_patterns in Hx. destruct Hx as (c & _ & _ & ->).
    apply surfaces_field_cap, surfaces_of_cap.
Qed.

(** ** More on learning phrases *)


Lemma under_docs_incl all_tokens phrase :
  incl (map occ_doc (under occ_phrase phrase (phrase_occurrences all_tokens)))
       (map fst all_tokens).
Proof.
  intros d Hd. apply in_map_iff in Hd. destruct Hd as [o [<- Ho]].
  apply filter_In in Ho. destruct Ho as [Ho _].
  unfold phrase_occurrences in Ho. apply in_flat_map in Ho.
  destruct Ho as [[doc toks] [Hin Ho]].
  apply in_flat_map in Ho. destruct Ho as [n [_ Ho]].
  apply in_map_iff in Ho. destruct Ho as [[[ph d'] sf] [<- Hg]].
  assert (d' = doc).
  { clear - Hg. unfold generate_ngrams in Hg. apply in_flat_map in Hg.
    destruct Hg as [i [_ Hg]].
    destruct (negb _); [contradiction|].
    destruct (negb _); [contradiction|].
    destruct Hg as [Hg|[]]. congruence. }
  subst d'. unfold occ_doc. simpl.
  change doc with (fst (doc, toks)). now apply in_map.
Qed.

(** The document frequency of a phrase is at most its count and at most
    the number of documents of the corpus. *)
Lemma document_frequency_bounds all_tokens phrase :
  document_frequency all_tokens phrase <= total_count all_tokens phrase
  /\ document_frequency all_tokens phrase <= Z.of_nat (List.length all_tokens).
Proof.
  unfold document_frequency, total_count. split; apply inj_le.
  - rewrite <- (length_map occ_doc (under occ_phrase phrase _)).
    apply NoDup_incl_length; [apply NoDup_nodup|].
    intros d Hd. now apply nodup_In in Hd.
  - rewrite <- (length_map fst all_tokens).
    apply NoDup_incl_length; [apply NoDup_nodup|].
    intros d Hd. apply nodup_In in Hd. eapply under_docs_incl; eauto.
Qed.

Lemma qualifies_thresholds all_tokens total_docs phrase :
  qualifies all_tokens total_docs phrase = true ->
  2 <= total_count all_tokens phrase
  /\ 1 <= document_frequency all_tokens phrase
  /\ (total_docs <> 1 -> 5 <= total_count all_tokens phrase
                         /\ 2 <= document_frequency all_tokens phrase).
Proof.
  unfold qualifies. intros H. apply andb_true_iff in H. destruct H as [_ H].
  destruct (Z.eqb_spec total_docs 1);
    apply andb_true_iff in H; destruct H as [H1 H2];
    apply Z.leb_le in H1, H2; repeat split; try lia.
Qed.

Lemma phrase_entry_fields set_order all_tokens total_docs x :
  In x (phrase_entries set_order all_tokens total_docs) ->
  lp_n x = lp_t x
  /\ lp_s x = round2 (IZR (lp_c x) * ln (IZR (1 + lp_df x))).
Proof.
  unfold phrase_entries.
  destruct (_unigram_counts_and_total all_tokens) as [u T].
  intros Hx. apply in_flat_map in Hx. destruct Hx as [[ph c] [_ Hx]].
  destruct (_ || _); [contradiction|].
  destruct (negb _); [contradiction|].
  destruct Hx as [<-|[]]. split; reflexivity.
Qed.

(** Every learning phrase is found at least twice, in at least one
    document, in no more documents than it is found times and than the
    corpus has; its key is repeated under ["n"]; its score is
    round(c * ln(1 + df), 2) and is at least 1. *)
Theorem extract_learning_phrases_entries set_order all_tokens total_docs :
  Forall
    (fun x =>
       lp_n x = lp_t x
       /\ 2 <= lp_c x
       /\ 1 <= lp_df x <= lp_c x
       /\ lp_df x <= Z.of_nat (List.length all_tokens)
       /\ lp_s x = round2 (IZR (lp_c x) * ln (IZR (1 + lp_df x)))
       /\ (1 <= lp_s x)%R)
    (extract_learning_phrases set_order all_tokens total_docs).
Proof.
  apply Forall_forall. intros x Hx.
  apply In_extract_learning_phrases in Hx.
  pose proof (phrase_entry_fields _ _ _ _ Hx) as [Hn Hs].
  pose proof (proj1 (Forall_forall _ _)
                (phrase_entries_counts set_order all_tokens total_docs) x Hx)
    as [Hc Hd].
  assert (Hq : qualifies all_tokens total_docs (lp_t x) = true).
  { apply (in_map lp_t) in Hx. rewrite phrase_entries_t in Hx.
    now apply filter_In in Hx. }
  apply qualifies_thresholds in Hq. destruct Hq as (Hq1 & Hq2 & _).
  pose proof (document_frequency_bounds all_tokens (lp_t x)) as [Hb1 Hb2].
  rewrite <- Hc, <- Hd in *.
  repeat split; auto.
  rewrite Hs. replace 1%R with (round2 1).
  - apply round2_mono.
    assert (H2 : (ln 2 <= ln (IZR (1 + lp_df x)))%R).
    { destruct (Z.eq_dec (lp_df x) 1) as [E|E].
      - rewrite E. simpl. lra.
      - left. apply ln_increasing; [lra|]. apply IZR_lt. lia. }
    pose proof ln_lt_2. apply IZR_le in Hq1.
    assert (0 < ln (IZR (1 + lp_df x)))%R by lra. nra.
  - rewrite (round2_hundredths 1 100); lra.
Qed.

(** When [total_docs] is not 1 and the corpus holds at most one document
    (a document announced but not supplied), nothing is returned: no phrase
    can reach a document frequency of 2. *)
Theorem extract_learning_phrases_missing_documents set_order all_tokens total_docs :
  (List.length all_tokens <= 1)%nat ->
  total_docs <> 1 ->
  extract_learning_phrases set_order all_tokens total_docs = [].
Proof.
  intros Hlen Hd.
  assert (E : phrase_entries set_order all_tokens total_docs = []).
  { destruct (phrase_entries set_order all_tokens total_docs) as [|x l] eqn:E;
      auto. exfalso.
    assert (Hx : In (lp_t x) (map lp_t (phrase_entries set_order all_tokens total_docs)))
      by (rewrite E; now left).
    rewrite phrase_entries_t in Hx. apply filter_In in Hx. destruct Hx as [_ Hq].
    apply qualifies_thresholds in Hq. destruct Hq as (_ & _ & Hq).
    destruct (Hq Hd) as [_ H2].
    pose proof (document_frequency_bounds all_tokens (lp_t x)) as [_ Hb]. lia. }
  unfold extract_learning_phrases. now rewrite E.
Qed.

Lemma extract_learning_phrases_missing_documents_witness :
  extract_learning_phrases (fun s => s) single_doc_corpus 2 = [].
Proof.
  refine (extract_learning_phrases_missing_documents
            (fun s => s) single_doc_corpus 2 _ _).
  - vm_compute. apply le_n.
  - discriminate.
Defined.

(** Documents of fewer than two tokens yield no n-gram, so a corpus made of
    such documents (the empty corpus among them) has no learning
    phrases. *)
Theorem extract_learning_phrases_short_documents set_order all_tokens total_docs :
  Forall (fun d => (List.length (snd d) < 2)%nat) all_tokens ->
  extract_learning_phrases set_order all_tokens total_docs = [].
Proof.
  intros Hshort.
  assert (Ho : phrase_occurrences all_tokens = []).
  { destruct (phrase_occurrences all_tokens) as [|o os] eqn:E; auto. exfalso.
    assert (Hin : In o (phrase_occurrences all_tokens)) by (rewrite E; now left).
    unfold phrase_occurrences in Hin. apply in_flat_map in Hin.
    destruct Hin as [[doc toks] [Hd Hin]].
    apply in_flat_map in Hin. destruct Hin as [n [Hn Hin]].
    apply in_map_iff in Hin. destruct Hin as [g [_ Hg]].
    rewrite Forall_forall in Hshort. specialize (Hshort _ Hd). simpl in Hshort.
    pose proof (generate_ngrams_bound toks n doc) as Hlen.
    destruct (generate_ngrams toks n doc); [contradiction|].
    simpl in Hlen, Hn. lia. }
  assert (E : phrase_entries set_order all_tokens total_docs = []).
  { apply map_eq_nil with (f := lp_t). rewrite phrase_entries_t.
    unfold candidate_phrases. rewrite Ho. reflexivity. }
  unfold extract_learning_phrases. now rewrite E.
Qed.

Lemma extract_learning_phrases_short_documents_witness :
  extract_learning_phrases (fun s => s) [("doc-a", [word "folks" "NOUN"])] 1 = [].
Proof.
  refine (extract_learning_phrases_short_documents
            (fun s => s) [("doc-a", [word "folks" "NOUN"])] 1 _).
  constructor; [|constructor]. vm_compute. apply le_n.
Defined.

(** ** Unigram counts *)

Lemma unigram_fold_tokens ts : forall acc,
  fold_left unigram_step ts acc =
  (fold_left (fun c t => counter_incr (unigram_form t) c)
             (filter (fun t => negb (Py.falsy (unigram_form t))) ts) (fst acc),
   snd acc
   + Z.of_nat (List.length (filter (fun t => negb (Py.falsy (unigram_form t))) ts))).
Proof.
  induction ts as [|t ts IH]; intros [c n]; simpl.
  - f_equal. lia.
  - rewrite IH. unfold unigram_step at 1 2. fold (unigram_form t).
    destruct (negb (Py.falsy (unigram_form t))); cbn [fst snd fold_left List.length].
    + f_equal. lia.
    + reflexivity.
Qed.

Lemma unigram_fold_docs (all_tokens : Dict.t (list Token)) : forall acc,
  fold_left (fun acc '(_, tokens) => fold_left unigram_step tokens acc)
            all_tokens acc
  = fold_left unigram_step (flat_map snd all_tokens) acc.
Proof.
  induction all_tokens as [|[d ts] l IH]; intros acc; simpl; auto.
  now rewrite fold_left_app, IH.
Qed.

Lemma unigram_counts_eq all_tokens :
  _unigram_counts_and_total all_tokens =
  (fold_left (fun c t => counter_incr (unigram_form t) c)
             (unigram_tokens all_tokens) [],
   Z.of_nat (List.length (unigram_tokens all_tokens))).
Proof.
  unfold _unigram_counts_and_total. rewrite unigram_fold_docs.
  rewrite unigram_fold_tokens. reflexivity.
Qed.

Lemma counter_total_incr k c :
  counter_total (counter_incr k c) = counter_total c + 1.
Proof.
  unfold counter_total, counter_incr.
  induction c as [|[k' v] r IH]; simpl; [reflexivity|].
  destruct (String.eqb k k'); simpl; [unfold incr_value|rewrite IH]; lia.
Qed.

Lemma counter_total_fold {X} (key : X -> string) (xs : list X) : forall c,
  counter_total (fold_left (fun c x => counter_incr (key x) c) xs c)
  = counter_total c + Z.of_nat (List.length xs).
Proof.
  induction xs as [|x xs IH]; intros c; [simpl; lia|].
  cbn [fold_left]. rewrite IH, counter_total_incr.
  cbn [List.length]. lia.
Qed.

(** The total that [_unigram_counts_and_total] returns is the number of
    tokens whose normalized form (or, when that is empty, lemma) is not
    blank, and it is the sum of the unigram counts; the count of a form is
    the number of such tokens with that form, stripped; the keys are
    distinct and not empty. *)
Theorem unigram_counts_and_total_spec all_tokens :
  snd (_unigram_counts_and_total all_tokens)
  = Z.of_nat (List.length (unigram_tokens all_tokens))
  /\ snd (_unigram_counts_and_total all_tokens)
     = counter_total (fst (_unigram_counts_and_total all_tokens))
  /\ (forall w,
        Dict.get_default (fst (_unigram_counts_and_total all_tokens)) w 0
        = Z.of_nat (List.length (under unigram_form w (unigram_tokens all_tokens))))
  /\ NoDup (Dict.keys (fst (_unigram_counts_and_total all_tokens)))
  /\ Forall (fun k => k <> "")
            (Dict.keys (fst (_unigram_counts_and_total all_tokens))).
Proof.
  rewrite unigram_counts_eq. cbn [fst snd].
  split; [reflexivity|]. split; [|split; [|split]].
  - rewrite counter_total_fold. reflexivity.
  - intros w. unfold Dict.get_default.
    rewrite (get_counter_fold unigram_form).
    now destruct (under unigram_form w (unigram_tokens all_tokens)).
  - apply (NoDup_keys_fold_update unigram_form (fun _ => incr_value)).
    constructor.
  - apply Forall_forall. intros k Hk.
    apply (keys_fold_update unigram_form (fun _ => incr_value)) in Hk.
    destruct Hk as [[]|Hk].
    apply in_map_iff in Hk. destruct Hk as [t [<- Ht]].
    apply filter_In in Ht. destruct Ht as [_ Ht].
    apply negb_true_iff in Ht. now apply String.eqb_neq in Ht.
Qed.

(** ** More on pattern aggregation *)

Lemma most_common_sorted k c :
  StronglySorted (fun x y => snd y <= snd x) (most_common k c).
Proof.
  unfold most_common. apply sorted_firstn.
  eapply StronglySorted_impl; [|apply stable_sort_sorted].
  - intros x y H. unfold ordered in H. apply Z.ltb_ge in H. exact H.
  - intros x y H. apply Z.ltb_lt in H. apply Z.ltb_ge. lia.
  - intros x y z. unfold ordered. rewrite !Z.ltb_ge. lia.
Qed.

Lemma most_common_length k c : (List.length (most_common k c) <= k)%nat.
Proof. unfold most_common. rewrite length_firstn. lia. Qed.

Lemma most_common_NoDup k (c : Dict.t Z) :
  NoDup (Dict.keys c) -> NoDup (map fst (most_common k c)).
Proof.
  intros H. unfold most_common. rewrite <- firstn_map. apply NoDup_firstn.
  eapply Permutation_NoDup; [|exact H].
  apply Permutation_map. symmetry. apply stable_sort_perm.
Qed.

Lemma most_common_all k (c : Dict.t Z) :
  (List.length c <= k)%nat ->
  most_common k c = stable_sort (fun y x => snd x <? snd y) c.
Proof.
  intros H. unfold most_common. apply firstn_all2.
  now rewrite stable_sort_length.
Qed.

(** Keeping at most one item per element keeps the order. *)
Lemma flat_map_sorted {A B} (R : A -> A -> Prop) (R' : B -> B -> Prop)
  (h : A -> list B) (item : A -> B) (l : list A) :
  (forall a, h a = [] \/ h a = [item a]) ->
  (forall a b, R a b -> R' (item a) (item b)) ->
  StronglySorted R l -> StronglySorted R' (flat_map h l).
Proof.
  intros Hh HR. induction 1 as [|a l Hl IH Ha]; simpl; [constructor|].
  destruct (Hh a) as [E|E]; rewrite E; simpl; auto.
  constructor; auto.
  apply Forall_forall. intros y Hy. apply in_flat_map in Hy.
  destruct Hy as [b [Hb Hy]]. rewrite Forall_forall in Ha.
  destruct (Hh b) as [E'|E']; rewrite E' in Hy; [contradiction|].
  destruct Hy as [<-|[]]. auto.
Qed.

Lemma flat_map_NoDup {A B} (key : A -> string) (key' : B -> string)
  (h : A -> list B) (item : A -> B) (l : list A) :
  (forall a, h a = [] \/ h a = [item a]) ->
  (forall a, key' (item a) = key a) ->
  NoDup (map key l) -> NoDup (map key' (flat_map h l)).
Proof.
  intros Hh Hk. induction l as [|a l IH]; simpl; [constructor|].
  intros Hnd. inversion Hnd as [|? ? Hni Hnd']; subst.
  destruct (Hh a) as [E|E]; rewrite E; simpl; auto.
  constructor; auto. rewrite Hk. intros Hin.
  apply in_map_iff in Hin. destruct Hin as [y [Hy Hin]].
  apply in_flat_map in Hin. destruct Hin as [b [Hb Hin]].
  destruct (Hh b) as [E'|E']; rewrite E' in Hin; [contradiction|].
  destruct Hin as [<-|[]]. rewrite Hk in Hy. apply Hni.
  rewrite <- Hy. now apply in_map.
Qed.

Lemma pattern_count_keys all_patterns :
  Dict.keys (pt_pattern_count (fold_left pattern_doc_step all_patterns pattern_init))
  = set_of (map occ_key (pattern_occurrences all_patterns)).
Proof.
  rewrite pattern_state_flat, pattern_count_fold. simpl.
  change (fold_left (fun c o => counter_incr (occ_key o) c)
                    (pattern_occurrences all_patterns) [])
    with (fold_left (upd_step occ_key (fun _ => incr_value))
                    (pattern_occurrences all_patterns) []).
  rewrite keys_fold_set. unfold set_of. now rewrite fold_left_map.
Qed.

Lemma set_of_NoDup xs : NoDup (set_of xs).
Proof. unfold set_of. apply fold_set_add_spec. constructor. Qed.

Lemma In_set_of xs x : In x (set_of xs) <-> In x xs.
Proof.
  unfold set_of.
  destruct (fold_set_add_spec xs [] (NoDup_nil _)) as [_ H].
  rewrite H. simpl. tauto.
Qed.

Lemma pattern_entry_cases set_order st (e : string * Z) :
  (let '(pattern, count) := e in
   if head_lemma_is_common pattern then []
   else [pattern_item set_order st pattern count]) = []
  \/ (let '(pattern, count) := e in
      if head_lemma_is_common pattern then []
      else [pattern_item set_order st pattern count])
     = [pattern_item set_order st (fst e) (snd e)].
Proof.
  destruct e as [p c]. simpl. destruct (head_lemma_is_common p); auto.
Qed.

(** The aggregated patterns are sorted by count descending, hold each key
    once and at most 1000 keys, and none whose head word is common. *)
Theorem aggregate_patterns_ranked set_order all_patterns :
  StronglySorted (fun x y => pp_c y <= pp_c x)
                 (aggregate_patterns set_order all_patterns)
  /\ NoDup (map pp_t (aggregate_patterns set_order all_patterns))
  /\ (List.length (aggregate_patterns set_order all_patterns) <= 1000)%nat
  /\ Forall (fun e => head_lemma_is_common (pp_t e) = false)
            (aggregate_patterns set_order all_patterns).
Proof.
  unfold aggregate_patterns.
  set (st := fold_left pattern_doc_step all_patterns pattern_init).
  split; [|split; [|split]].
  - eapply (flat_map_sorted (fun x y => snd y <= snd x) _ _
              (fun e => pattern_item set_order st (fst e) (snd e))).
    + apply pattern_entry_cases.
    + intros a b H. exact H.
    + apply most_common_sorted.
  - eapply (flat_map_NoDup fst pp_t _
              (fun e => pattern_item set_order st (fst e) (snd e))).
    + apply pattern_entry_cases.
    + reflexivity.
    + apply most_common_NoDup. unfold st. rewrite pattern_count_keys.
      apply set_of_NoDup.
  - eapply Nat.le_trans; [apply flat_map_length_le|apply most_common_length].
    intros [p c]. destruct (head_lemma_is_common p); simpl; lia.
  - apply Forall_forall. intros e He. apply in_flat_map in He.
    destruct He as [[p c] [_ He]].
    destruct (head_lemma_is_common p) eqn:Hh; [contradiction|].
    destruct He as [<-|[]]. exact Hh.
Qed.

(** When the corpus has at most 1000 distinct pattern keys, the keys
    returned are exactly the keys found whose head word is not common. *)
Theorem aggregate_patterns_complete set_order all_patterns key :
  (List.length (set_of (map occ_key (pattern_occurrences all_patterns)))
   <= 1000)%nat ->
  In key (map pp_t (aggregate_patterns set_order all_patterns))
  <-> In key (map occ_key (pattern_occurrences all_patterns))
      /\ head_lemma_is_common key = false.
Proof.
  intros Hlen. unfold aggregate_patterns.
  set (st := fold_left pattern_doc_step all_patterns pattern_init).
  assert (Hk : Dict.keys (pt_pattern_count st)
               = set_of (map occ_key (pattern_occurrences all_patterns)))
    by apply pattern_count_keys.
  rewrite most_common_all.
  2:{ rewrite <- (length_map fst). fold (Dict.keys (pt_pattern_count st)).
      now rewrite Hk. }
  rewrite <- (In_set_of (map occ_key (pattern_occurrences all_patterns))), <- Hk.
  split.
  - intros H. apply in_map_iff in H. destruct H as [e [<- He]].
    apply in_flat_map in He. destruct He as [[p c] [Hin He]].
    destruct (head_lemma_is_common p) eqn:Hh; [contradiction|].
    destruct He as [<-|[]]. simpl. split; auto.
    apply stable_sort_In in Hin. change p with (fst (p, c)). now apply in_map.
  - intros [Hin Hh]. apply in_map_iff in Hin. destruct Hin as [[p c] [<- Hin]].
    simpl in Hh. apply in_map_iff.
    exists (pattern_item set_order st p c). split; [reflexivity|].
    apply in_flat_map. exists (p, c). split.
    + now apply stable_sort_In.
    + rewrite Hh. now left.
Qed.

Lemma aggregate_patterns_complete_witness :
  In "gold ring" (map pp_t (aggregate_patterns (fun s => s) kind_patterns)).
Proof.
  refine (proj2 (aggregate_patterns_complete (fun s => s) kind_patterns
                   "gold ring" _) _).
  - apply Nat.leb_le. vm_compute. reflexivity.
  - split; [vm_compute; auto|vm_compute; reflexivity].
Defined.

(** ** Idiom phrases *)

Section IdiomFacts.

Variable is_idiom : string -> bool.
Variable set_order : list string -> list string.

Local Abbreviation idiom_step := (idiom_step is_idiom).
Local Abbreviation idiom_doc_step := (idiom_doc_step is_idiom).
Local Abbreviation idiom_item := (idiom_item set_order).
Local Abbreviation idiom_occurrences := (idiom_occurrences is_idiom).
Local Abbreviation extract_idiom_phrases :=
  (extract_idiom_phrases is_idiom set_order).

Lemma idiom_state_flat all_tokens : forall st,
  fold_left idiom_doc_step all_tokens st =
  fold_left idiom_step
    (flat_map
       (fun '(doc_id, tokens) =>
          flat_map (fun n => generate_ngrams tokens n doc_id)
                   [2; 3; 4; 5; 6; 7]%nat)
       all_tokens) st.
Proof.
  induction all_tokens as [|[d toks] l IH]; intros st; simpl; auto.
  rewrite fold_left_app, <- IH. f_equal.
  rewrite !fold_left_app. reflexivity.
Qed.

Lemma idiom_count_fold gs : forall st,
  id_phrase_count (fold_left idiom_step gs st) =
  fold_left (fun c g => counter_incr (gram_phrase g) c)
            (filter (fun g => is_idiom (gram_phrase g)) gs) (id_phrase_count st).
Proof.
  induction gs as [|[[ph d] sf] gs IH]; intros st; [reflexivity|].
  cbn [fold_left filter]. rewrite IH.
  change (gram_phrase (ph, d, sf)) with ph. unfold idiom_step.
  destruct (is_idiom ph); reflexivity.
Qed.

Lemma idiom_docs_fold gs : forall st,
  id_phrase_docs (fold_left idiom_step gs st) =
  fold_left (fun d g => dict_set_add (gram_phrase g) (gram_doc g) d)
            (filter (fun g => is_idiom (gram_phrase g)) gs) (id_phrase_docs st).
Proof.
  induction gs as [|[[ph d] sf] gs IH]; intros st; [reflexivity|].
  cbn [fold_left filter]. rewrite IH.
  change (gram_phrase (ph, d, sf)) with ph. unfold idiom_step.
  destruct (is_idiom ph); reflexivity.
Qed.

Lemma idiom_count_keys all_tokens :
  Dict.keys (id_phrase_count (fold_left idiom_doc_step all_tokens idiom_init))
  = set_of (map gram_phrase (idiom_occurrences all_tokens)).
Proof.
  rewrite idiom_state_flat, idiom_count_fold.
  etransitivity; [apply (keys_fold_set gram_phrase (fun _ => incr_value))|].
  unfold set_of, idiom_occurrences. now rewrite fold_left_map.
Qed.

Lemma In_extract_idiom_phrases all_tokens total_docs x :
  In x (extract_idiom_phrases all_tokens total_docs) ->
  let occs := under gram_phrase (ip_t x) (idiom_occurrences all_tokens) in
  occs <> []
  /\ ip_c x = Z.of_nat (List.length occs)
  /\ ip_df x = Z.of_nat (List.length (nodup string_dec (map gram_doc occs))).
Proof.
  unfold extract_idiom_phrases. intros H. apply in_map_iff in H.
  destruct H as [[ph c] [<- Hin]]. apply In_most_common in Hin.
  cbn [idiom_item ip_t ip_c ip_df].
  apply In_get in Hin.
  2:{ rewrite idiom_count_keys. apply set_of_NoDup. }
  rewrite idiom_state_flat in *. rewrite idiom_count_fold in Hin.
  rewrite idiom_docs_fold.
  change (id_phrase_count idiom_init) with (@nil (string * Z)) in Hin.
  change (id_phrase_docs idiom_init) with (@nil (string * list string)).
  rewrite (get_counter_fold gram_phrase) in Hin.
  rewrite (get_set_fold gram_phrase gram_doc), length_set_of.
  unfold idiom_occurrences.
  destruct (under gram_phrase ph _) eqn:E; [discriminate|].
  repeat split; congruence.
Qed.

(** The idiom phrases are sorted by count descending and hold each phrase
    once and at most 500 phrases; every phrase is an idiom, found as an
    n-gram of 2 to 7 tokens; its count is the number of such occurrences
    and its document frequency the number of distinct documents they are
    found in, which is at least 1 and at most the count. *)
Theorem extract_idiom_phrases_spec all_tokens total_docs :
  StronglySorted (fun x y => ip_c y <= ip_c x)
                 (extract_idiom_phrases all_tokens total_docs)
  /\ NoDup (map ip_t (extract_idiom_phrases all_tokens total_docs))
  /\ (List.length (extract_idiom_phrases all_tokens total_docs) <= 500)%nat
  /\ Forall
       (fun x =>
          let occs := under gram_phrase (ip_t x) (idiom_occurrences all_tokens) in
          is_idiom (ip_t x) = true
          /\ ip_c x = Z.of_nat (List.length occs)
          /\ ip_df x = Z.of_nat (List.length (nodup string_dec (map gram_doc occs)))
          /\ 1 <= ip_df x <= ip_c x)
       (extract_idiom_phrases all_tokens total_docs).
Proof.
  split; [|split; [|split]].
  - unfold extract_idiom_phrases.
    set (st := fold_left idiom_doc_step all_tokens idiom_init).
    assert (H := most_common_sorted 500 (id_phrase_count st)).
    induction H as [|a l Hl IH Ha]; simpl; constructor; auto.
    rewrite Forall_forall in *. intros y Hy. apply in_map_iff in Hy.
    destruct Hy as [b [<- Hb]]. specialize (Ha b Hb).
    destruct a, b. exact Ha.
  - unfold extract_idiom_phrases. rewrite map_map.
    rewrite (map_ext _ fst) by (now intros [ph c]).
    apply most_common_NoDup. rewrite idiom_count_keys. apply set_of_NoDup.
  - unfold extract_idiom_phrases. rewrite length_map. apply most_common_length.
  - apply Forall_forall. intros x Hx.
    apply In_extract_idiom_phrases in Hx. cbv zeta in *.
    destruct Hx as (Hne & Hc & Hd).
    set (occs := under gram_phrase (ip_t x) (idiom_occurrences all_tokens)) in *.
    assert (Hi : is_idiom (ip_t x) = true).
    { destruct occs as [|g r] eqn:E; [congruence|].
      assert (Hg : In g occs) by (rewrite E; now left).
      apply filter_In in Hg. destruct Hg as [Hg Hk].
      apply filter_In in Hg. destruct Hg as [_ Hg].
      apply String.eqb_eq in Hk. now rewrite <- Hk. }
    repeat split; auto.
    + rewrite Hd. destruct occs as [|g r]; [congruence|].
      assert (Hin : In (gram_doc g) (nodup string_dec (map gram_doc (g :: r))))
        by (apply nodup_In; now left).
      destruct (nodup string_dec (map gram_doc (g :: r))); [contradiction|].
      simpl List.length. lia.
    + rewrite Hc, Hd. apply inj_le.
      rewrite <- (length_map gram_doc occs).
      apply NoDup_incl_length; [apply NoDup_nodup|].
      intros d Hd'. now apply nodup_In in Hd'.
Qed.

(** When no more than 500 distinct idioms are found, every idiom found is
    returned. *)
Theorem extract_idiom_phrases_complete all_tokens total_docs phrase :
  (List.length (set_of (map gram_phrase (idiom_occurrences all_tokens)))
   <= 500)%nat ->
  In phrase (map ip_t (extract_idiom_phrases all_tokens total_docs))
  <-> In phrase (map gram_phrase (idiom_occurrences all_tokens)).
Proof.
  intros Hlen. unfold extract_idiom_phrases.
  set (st := fold_left idiom_doc_step all_tokens idiom_init).
  assert (Hk : Dict.keys (id_phrase_count st)
               = set_of (map gram_phrase (idiom_occurrences all_tokens)))
    by apply idiom_count_keys.
  rewrite most_common_all.
  2:{ rewrite <- (length_map fst). fold (Dict.keys (id_phrase_count st)).
      now rewrite Hk. }
  rewrite <- (In_set_of (map gram_phrase (idiom_occurrences all_tokens))), <- Hk.
  rewrite map_map. rewrite (map_ext _ fst) by (now intros [ph c]).
  unfold Dict.keys. split; intros H.
  - eapply Permutation_in; [|exact H].
    apply Permutation_map, stable_sort_perm.
  - eapply Permutation_in; [|exact H].
    apply Permutation_map. symmetry. apply stable_sort_perm.
Qed.

End IdiomFacts.

Lemma extract_idiom_phrases_complete_witness :
  In "folks reckon"
     (map ip_t (extract_idiom_phrases (String.eqb "folks reckon") (fun s => s)
                                      single_doc_corpus 1)).
Proof.
  refine (proj2 (extract_idiom_phrases_complete
                   (String.eqb "folks reckon") (fun s => s)
                   single_doc_corpus 1 "folks reckon" _) _).
  - apply Nat.leb_le. vm_compute. reflexivity.
  - vm_compute. auto.
Defined.

(** ** Processed documents and extracted patterns *)

Lemma lower_char_idempotent c :
  Py.lower_char (Py.lower_char c) = Py.lower_char c.
Proof. destruct c as [[] [] [] [] [] [] [] []]; reflexivity. Qed.

Lemma isspace_lower_char c : Py.isspace (Py.lower_char c) = Py.isspace c.
Proof. destruct c as [[] [] [] [] [] [] [] []]; reflexivity. Qed.

Lemma lower_idempotent s : Py.lower (Py.lower s) = Py.lower s.
Proof.
  induction s as [|c r IH]; simpl; auto.
  now rewrite lower_char_idempotent, IH.
Qed.

Lemma lower_word w : is_word w -> is_word (Py.lower w).
Proof.
  intros [Hn Hs]. split.
  - destruct w; [congruence|discriminate].
  - clear Hn. induction w as [|c r IH]; simpl in *; auto.
    apply andb_true_iff in Hs. destruct Hs as [Hc Hr].
    now rewrite isspace_lower_char, Hc, IH.
Qed.

(** [process_document] keeps, in order, the tokens whose part of speech is
    not ignored; the lemma of each is lowercase, and its normalized form is
    "SB", "NUM" or that lemma. *)
Theorem process_document_tokens doc :
  map text (process_document doc)
  = map Spacy.text
        (filter (fun token => negb (Py.mem (Spacy.pos_ token) IGNORE_POS)) doc)
  /\ Forall
       (fun t =>
          Py.mem (pos t) IGNORE_POS = false
          /\ Py.lower (lemma t) = lemma t
          /\ (norm t = "SB" \/ norm t = "NUM" \/ norm t = lemma t))
       (process_document doc).
Proof.
  split.
  - unfold process_document. induction doc as [|token doc IH]; [reflexivity|].
    cbn [flat_map filter]. rewrite map_app, IH.
    destruct (Py.mem (Spacy.pos_ token) IGNORE_POS); reflexivity.
  - apply Forall_forall. intros t Ht. unfold process_document in Ht.
    apply in_flat_map in Ht. destruct Ht as [token [_ Ht]].
    destruct (Py.mem (Spacy.pos_ token) IGNORE_POS) eqn:E; [contradiction|].
    destruct Ht as [<-|[]]. cbn [pos lemma norm].
    repeat split; auto using lower_idempotent.
    unfold norm_token.
    destruct (String.eqb (Spacy.pos_ token) "PRON"); auto.
    destruct (String.eqb (Spacy.pos_ token) "PROPN"); auto.
    destruct (Spacy.like_num token || String.eqb (Spacy.pos_ token) "NUM"); auto.
Qed.

Lemma split_from_word_space w r : forall acc,
  spaceless w = true -> acc ++ w <> "" ->
  Py.split_from acc (w ++ String " " r) = (acc ++ w) :: Py.split_from "" r.
Proof.
  induction w as [|c w IH]; intros acc Hs Hne.
  - change ("" ++ String " " r) with (String " " r).
    rewrite split_from_cons.
    change (Py.isspace " ") with true. cbv iota.
    assert (E : acc ++ "" = acc).
    { clear. induction acc; simpl; congruence. }
    rewrite E in *. apply String.eqb_neq in Hne. now rewrite Hne.
  - simpl in Hs. apply andb_true_iff in Hs. destruct Hs as [Hc Hw].
    apply negb_true_iff in Hc.
    change (String c w ++ String " " r) with (String c (w ++ String " " r)).
    rewrite split_from_cons, Hc.
    assert (E : (acc ++ String c "") ++ w = acc ++ String c w).
    { clear. induction acc; simpl; congruence. }
    rewrite IH; auto.
    + now rewrite E.
    + rewrite E. destruct acc; discriminate.
Qed.

(** The first word of a key that starts with a word and a space. *)
Lemma split_head w r :
  is_word w -> Py.split (w ++ " " ++ r) = w :: Py.split r.
Proof.
  intros [Hn Hs]. unfold Py.split.
  change (w ++ " " ++ r) with (w ++ String " " r).
  rewrite (split_from_word_space w r ""); auto.
Qed.

Lemma head_of_key w r :
  is_word w -> head_lemma_is_common (w ++ " " ++ r) = is_common_lemma w.
Proof.
  intros Hw. rewrite head_lemma_split, split_head by assumption.
  unfold is_common_lemma.
  assert (F : Py.falsy w = false) by (apply String.eqb_neq, Hw).
  rewrite F. now rewrite (strip_word _ (lower_word w Hw)).
Qed.

(** Every pattern has one of the five kinds, and a document without verbs
    and nouns gives no pattern. *)
Theorem extract_pattern_phrases_kinds doc_text doc :
  Forall (fun p => In (p_kind p) ["VPO"; "phrasal"; "VO"; "adjn"; "nn"])
         (extract_pattern_phrases doc_text doc)
  /\ (Forall (fun token => Spacy.pos_ token <> "VERB"
                           /\ Spacy.pos_ token <> "NOUN") doc
      -> extract_pattern_phrases doc_text doc = []).
Proof.
  split.
  - apply Forall_forall. intros p Hp. unfold extract_pattern_phrases in Hp.
    apply in_flat_map in Hp. destruct Hp as [token [_ Hp]].
    unfold token_patterns in Hp. apply in_app_or in Hp.
    destruct Hp as [Hp|Hp].
    + destruct (String.eqb (Spacy.pos_ token) "VERB"); [|contradiction].
      apply in_flat_map in Hp. destruct Hp as [child [_ Hp]].
      unfold verb_child_patterns in Hp.
      apply in_app_or in Hp. destruct Hp as [Hp|Hp].
      * destruct (String.eqb (Spacy.dep_ child) "prep"); [|contradiction].
        apply in_flat_map in Hp. destruct Hp as [g [_ Hp]].
        destruct (String.eqb (Spacy.dep_ g) "pobj"); [|contradiction].
        destruct Hp as [<-|[]]. simpl. auto.
      * apply in_app_or in Hp. destruct Hp as [Hp|Hp].
        -- destruct (String.eqb (Spacy.dep_ child) "prt"); [|contradiction].
           destruct Hp as [<-|[]]. simpl. auto.
        -- destruct (String.eqb (Spacy.dep_ child) "dobj"); [|contradiction].
           destruct Hp as [<-|[]]. simpl. auto.
    + destruct (String.eqb (Spacy.pos_ token) "NOUN"); [|contradiction].
      apply in_flat_map in Hp. destruct Hp as [child [_ Hp]].
      unfold noun_child_patterns in Hp.
      apply in_app_or in Hp. destruct Hp as [Hp|Hp].
      * destruct (_ && _); [|contradiction].
        destruct Hp as [<-|[]]. simpl. auto 6.
      * destruct (_ && _); [|contradiction].
        destruct Hp as [<-|[]]. simpl. auto 6.
  - intros H. unfold extract_pattern_phrases.
    induction H as [|token doc [Hv Hn] Hd IH]; simpl; auto.
    rewrite IH, app_nil_r. unfold token_patterns.
    apply String.eqb_neq in Hv, Hn. now rewrite Hv, Hn.
Qed.

Lemma extract_pattern_phrases_kinds_witness :
  extract_pattern_phrases (fun _ _ => "")
    [Spacy.Tok "the" "the" "DET" "det" true false 0 []] = [].
Proof.
  refine (proj2 (extract_pattern_phrases_kinds (fun _ _ => "")
                   [Spacy.Tok "the" "the" "DET" "det" true false 0 []]) _).
  constructor; [|constructor]. split; discriminate.
Defined.

(** The head word of every pattern of a verb is the verb's lemma: when
    that lemma is one word, the pattern's head is common exactly when the
    lemma is, so the patterns of a common verb never pass the head test of
    [aggregate_patterns]. *)
Theorem verb_patterns_head doc_text token :
  is_word (Spacy.lemma_ token) ->
  Forall (fun p => head_lemma_is_common (p_t p)
                   = is_common_lemma (Spacy.lemma_ token))
         (flat_map (verb_child_patterns doc_text token) (Spacy.children token)).
Proof.
  intros Hw. apply Forall_forall. intros p Hp.
  apply in_flat_map in Hp. destruct Hp as [child [_ Hp]].
  unfold verb_child_patterns in Hp.
  apply in_app_or in Hp. destruct Hp as [Hp|Hp].
  - destruct (String.eqb (Spacy.dep_ child) "prep"); [|contradiction].
    apply in_flat_map in Hp. destruct Hp as [g [_ Hp]].
    destruct (String.eqb (Spacy.dep_ g) "pobj"); [|contradiction].
    destruct Hp as [<-|[]]. cbn [p_t]. now apply head_of_key.
  - apply in_app_or in Hp. destruct Hp as [Hp|Hp].
    + destruct (String.eqb (Spacy.dep_ child) "prt"); [|contradiction].
      destruct Hp as [<-|[]]. cbn [p_t]. now apply head_of_key.
    + destruct (String.eqb (Spacy.dep_ child) "dobj"); [|contradiction].
      destruct Hp as [<-|[]]. cbn [p_t]. now apply head_of_key.
Qed.

Lemma verb_patterns_head_witness :
  Forall (fun p => head_lemma_is_common (p_t p) = is_common_lemma "think")
    (flat_map
       (verb_child_patterns (fun _ _ => "")
          (Spacy.Tok "thinks" "think" "VERB" "ROOT" false false 1
             [Spacy.Tok "it" "it" "PRON" "dobj" true false 2 []]))
       [Spacy.Tok "it" "it" "PRON" "dobj" true false 2 []]).
Proof.
  refine (verb_patterns_head (fun _ _ => "")
            (Spacy.Tok "thinks" "think" "VERB" "ROOT" false false 1
               [Spacy.Tok "it" "it" "PRON" "dobj" true false 2 []]) _).
  split; [discriminate|reflexivity].
Defined.

(** ** Storage paths *)

Lemma remove_from_absent sub s :
  occurs sub s = false -> remove_from sub 0 s = s.
Proof.
  induction s as [|c r IH]; [reflexivity|].
  intros H. cbn [occurs] in H. apply orb_false_iff in H.
  destruct H as [Hp Ho]. cbn [remove_from]. rewrite Hp. now rewrite IH.
Qed.

Lemma split_once_first sep a b :
  has_char sep a = false ->
  split_once sep (a ++ String sep b) = Some (a, b).
Proof.
  induction a as [|c a IH]; simpl.
  - now rewrite Ascii.eqb_refl.
  - intros H. apply orb_false_iff in H. destruct H as [Hc Ha].
    rewrite Hc, (IH Ha). reflexivity.
Qed.

Lemma split_once_none sep s :
  has_char sep s = false <-> split_once sep s = None.
Proof.
  induction s as [|c r IH]; simpl; [tauto|].
  destruct (Ascii.eqb c sep); simpl.
  - split; discriminate.
  - rewrite IH. destruct (split_once sep r) as [[a b]|]; split;
      congruence.
Qed.

Lemma prefix_append p s : String.prefix p (p ++ s) = true.
Proof.
  induction p as [|c p IH]; simpl; [now destruct s|].
  destruct (ascii_dec c c); [exact IH|congruence].
Qed.

Lemma remove_from_skip sub p s :
  remove_from sub (String.length p) (p ++ s) = remove_from sub 0 s.
Proof. induction p as [|c p IH]; simpl; auto. Qed.

Lemma remove_from_leading sub s :
  sub <> "" -> remove_from sub 0 (sub ++ s) = remove_from sub 0 s.
Proof.
  intros Hne. destruct sub as [|c p]; [congruence|].
  change (String c p ++ s) with (String c (p ++ s)).
  cbn [remove_from].
  change (String c (p ++ s)) with (String c p ++ s).
  rewrite prefix_append.
  replace (String.length (String c p) - 1)%nat with (String.length p)
    by (simpl; lia).
  apply remove_from_skip.
Qed.

(** A path gs://bucket/path is parsed into its bucket and its path,
    provided the bucket has no slash and "gs://" does not occur again:
    every occurrence is removed, not only the leading one. *)
Theorem parse_gs_url_round_trip bucket path :
  has_char "/" bucket = false ->
  occurs "gs://" (bucket ++ "/" ++ path) = false ->
  parse_gs_url ("gs://" ++ bucket ++ "/" ++ path) = Return (bucket, path).
Proof.
  intros Hb Ho. unfold parse_gs_url, remove_all.
  rewrite prefix_append.
  change (Py.falsy ("gs://" ++ bucket ++ "/" ++ path)) with false.
  cbn [negb orb].
  rewrite remove_from_leading by discriminate.
  rewrite remove_from_absent by exact Ho.
  change (bucket ++ "/" ++ path) with (bucket ++ String "/" path).
  now rewrite split_once_first.
Qed.

Lemma parse_gs_url_round_trip_witness :
  parse_gs_url "gs://transcripts/people/p1/doc.txt"
  = Return ("transcripts", "people/p1/doc.txt").
Proof.
  refine (parse_gs_url_round_trip "transcripts" "people/p1/doc.txt" _ _);
    vm_compute; reflexivity.
Defined.

(** [parse_gs_url] raises ValueError exactly on the paths that do not start
    with "gs://" (the empty path among them), and IndexError exactly on
    those that start with it and have no slash left once every "gs://" is
    removed; on all others it returns. *)
Theorem parse_gs_url_errors gs_path :
  (parse_gs_url gs_path = Raise "ValueError"
   <-> String.prefix "gs://" gs_path = false)
  /\ (parse_gs_url gs_path = Raise "IndexError"
      <-> String.prefix "gs://" gs_path = true
          /\ has_char "/" (remove_all "gs://" gs_path) = false).
Proof.
  unfold parse_gs_url.
  assert (Hf : Py.falsy gs_path = true -> String.prefix "gs://" gs_path = false).
  { intros H. apply String.eqb_eq in H. now subst. }
  destruct (String.prefix "gs://" gs_path) eqn:Hp.
  - destruct (Py.falsy gs_path) eqn:F; [specialize (Hf eq_refl); discriminate|].
    cbn [negb orb]. rewrite split_once_none.
    destruct (split_once "/" (remove_all "gs://" gs_path)) as [[b p]|];
      repeat split; intros; try discriminate; try tauto.
    destruct H; discriminate.
  - rewrite orb_true_r. repeat split; intros; try discriminate; auto.
    destruct H; discriminate.
Qed.
